(** * The serial bridge of esp-usb-bridge: main/serial.c

    A shallow embedding of the UART <-> USB-CDC relay and of the DTR/RTS to
    BOOT/RST translation, and the properties of the specification that
    concern them.

    The file-scope variables of serial.c are the fields of one [world]
    record.  The code runs in a small monad over that record which also
    keeps the list of the calls made to FreeRTOS, ESP-IDF and TinyUSB, in
    program order.  Those libraries are not part of the repository; each
    call is given the behaviour of its documented contract, stated next to
    its definition. *)

From Stdlib Require Import ZArith List Bool String Lia.
Import ListNotations.
Open Scope string_scope.
Open Scope list_scope.
Open Scope Z_scope.

(** ** C integers *)

Definition uint8_t := Byte.byte.

(** [uint32_t] and [size_t] (32 bits on the target). *)
Definition uint32 (z : Z) : Z := z mod 2 ^ 32.

(** [int]. *)
Definition int32 (z : Z) : Z := (z + 2 ^ 31) mod 2 ^ 32 - 2 ^ 31.

Definition len {A : Type} (l : list A) : Z := Z.of_nat (List.length l).

Definition take {A : Type} (n : Z) (l : list A) : list A := firstn (Z.to_nat n) l.

Definition drop {A : Type} (n : Z) (l : list A) : list A := skipn (Z.to_nat n) l.

Definition Z_of_bool (b : bool) : Z := if b then 1 else 0.

(** ** Constants of serial.c *)

Definition SLAVE_UART_BUF_SIZE : Z := 2 * 1024.

Definition USB_SEND_RINGBUFFER_SIZE : Z := SLAVE_UART_BUF_SIZE.

(** The two output pins; their numbers come from the build configuration. *)
Inductive gpio_num_t := GPIO_BOOT | GPIO_RST.

(** ** Types of the libraries *)

(** A FreeRTOS wait: a number of milliseconds turned into ticks, or
    [portMAX_DELAY], which waits without limit. *)
Inductive TickType_t :=
| pdMS_TO_TICKS (ms : Z)
| portMAX_DELAY.

Definition bounded_wait (t : TickType_t) : bool :=
  match t with
  | pdMS_TO_TICKS _ => true
  | portMAX_DELAY => false
  end.

Inductive uart_event_type_t :=
| UART_DATA
| UART_BREAK
| UART_BUFFER_FULL
| UART_FIFO_OVF
| UART_FRAME_ERR
| UART_PARITY_ERR
| UART_OTHER (code : Z).

Record uart_event_t := mk_event { ev_type : uart_event_type_t; ev_size : Z }.

Inductive esp_err_t := ESP_OK | ESP_ERR_INVALID_STATE | ESP_FAIL.

Definition esp_err_eqb (a b : esp_err_t) : bool :=
  match a, b with
  | ESP_OK, ESP_OK => true
  | ESP_ERR_INVALID_STATE, ESP_ERR_INVALID_STATE => true
  | ESP_FAIL, ESP_FAIL => true
  | _, _ => false
  end.

Inductive esp_loader_error_t := ESP_LOADER_SUCCESS | ESP_LOADER_ERROR_FAIL.

Inductive log_level := LOGE | LOGW | LOGI | LOGD.

(** ** The calls the code makes, as they appear in the trace *)

Inductive api_call :=
| c_log (lvl : log_level) (fmt : string) (args : list Z)
| c_xQueueReceive (wait : TickType_t)
| c_xQueueReset
| c_uart_read_bytes (size : Z) (wait : TickType_t)
| c_uart_write_bytes (size : Z)
| c_uart_flush_input
| c_uart_set_baudrate (baud : Z)
| c_xRingbufferCreate (size : Z)
| c_xRingbufferSend (size : Z) (wait : TickType_t)
| c_xRingbufferGetCurFreeSize
| c_xRingbufferReceiveUpTo (wait : TickType_t) (max_size : Z)
| c_vRingbufferReturnItem (size : Z)
| c_vTaskDelay (wait : TickType_t)
| c_taskYIELD
| c_xTaskCreate (name : string) (stack : Z) (prio : Z)
| c_vTaskDelete
| c_tud_cdc_n_read (itf : Z) (bufsize : Z)
| c_tud_cdc_write_available
| c_tud_cdc_write (size : Z)
| c_tud_cdc_write_flush
| c_ets_delay_us (us : Z)
| c_esp_timer_create (name : string)
| c_esp_timer_stop
| c_esp_timer_start_once (us : Z)
| c_gpio_set_level (pin : gpio_num_t) (level : bool)
| c_loader_port_esp32_init (baud : Z) (rx_buffer_size : Z) (queue_size : Z)
| c_eub_abort.

(** ** The host side of the USB serial port

    TinyUSB is used through four functions.  What the host does between two
    of them is not the bridge's to decide, so the port is an interface: a
    state and the answers it gives. *)

Class HostPort (H : Type) := {
  (** [tud_cdc_write_available()]: room for bytes towards the host. *)
  host_write_available : H -> Z;
  (** [tud_cdc_write(buf, n)]: how many bytes the port took, and the port
      afterwards. *)
  host_write : list uint8_t -> H -> Z * H;
  (** [tud_cdc_write_flush()]. *)
  host_write_flush : H -> H;
  (** Time passing on the host's side during [ets_delay_us(us)]. *)
  host_wait : Z -> H -> H
}.

(** The sizes of TinyUSB's two buffers, from the build configuration. *)
Class Sdkconfig := {
  CONFIG_USB_CDC_TX_BUFSIZE : Z;
  CONFIG_USB_CDC_RX_BUFSIZE : Z
}.

Section Model.

Context {H : Type} {port : HostPort H} {cfg : Sdkconfig}.

(** ** The state *)

Record world := mk_world {
  serial_init_finished : bool;
  serial_read_enabled : bool;
  (** events posted by the UART driver, oldest first *)
  uart_queue : list uart_event_t;
  (** bytes received from the target, held by the UART driver, oldest first *)
  uart_rx : list uint8_t;
  (** bytes handed to the UART towards the target *)
  uart_tx : list uint8_t;
  (** how many more bytes the UART takes towards the target *)
  uart_tx_room : Z;
  (** content of the ring buffer between the two tasks, oldest first *)
  usb_sendbuf : list uint8_t;
  (** [Some us]: the one-shot timer is armed and fires in [us] microseconds *)
  state_change_timer : option Z;
  gpio_boot : bool;
  gpio_rst : bool;
  (** bytes received from the host, waiting in TinyUSB *)
  cdc_rx : list uint8_t;
  (** the port towards the host *)
  cdc_tx : H;
  (** every call made so far, in order *)
  calls : list api_call
}.

Definition set_serial_init_finished (v : bool) (w : world) : world :=
  mk_world v (serial_read_enabled w) (uart_queue w) (uart_rx w) (uart_tx w)
    (uart_tx_room w) (usb_sendbuf w) (state_change_timer w) (gpio_boot w)
    (gpio_rst w) (cdc_rx w) (cdc_tx w) (calls w).

Definition set_serial_read_enabled (v : bool) (w : world) : world :=
  mk_world (serial_init_finished w) v (uart_queue w) (uart_rx w) (uart_tx w)
    (uart_tx_room w) (usb_sendbuf w) (state_change_timer w) (gpio_boot w)
    (gpio_rst w) (cdc_rx w) (cdc_tx w) (calls w).

Definition set_uart_queue (v : list uart_event_t) (w : world) : world :=
  mk_world (serial_init_finished w) (serial_read_enabled w) v (uart_rx w)
    (uart_tx w) (uart_tx_room w) (usb_sendbuf w) (state_change_timer w)
    (gpio_boot w) (gpio_rst w) (cdc_rx w) (cdc_tx w) (calls w).

Definition set_uart_rx (v : list uint8_t) (w : world) : world :=
  mk_world (serial_init_finished w) (serial_read_enabled w) (uart_queue w) v
    (uart_tx w) (uart_tx_room w) (usb_sendbuf w) (state_change_timer w)
    (gpio_boot w) (gpio_rst w) (cdc_rx w) (cdc_tx w) (calls w).

Definition set_uart_tx (v : list uint8_t) (room : Z) (w : world) : world :=
  mk_world (serial_init_finished w) (serial_read_enabled w) (uart_queue w)
    (uart_rx w) v room (usb_sendbuf w) (state_change_timer w) (gpio_boot w)
    (gpio_rst w) (cdc_rx w) (cdc_tx w) (calls w).

Definition set_usb_sendbuf (v : list uint8_t) (w : world) : world :=
  mk_world (serial_init_finished w) (serial_read_enabled w) (uart_queue w)
    (uart_rx w) (uart_tx w) (uart_tx_room w) v (state_change_timer w)
    (gpio_boot w) (gpio_rst w) (cdc_rx w) (cdc_tx w) (calls w).

Definition set_state_change_timer (v : option Z) (w : world) : world :=
  mk_world (serial_init_finished w) (serial_read_enabled w) (uart_queue w)
    (uart_rx w) (uart_tx w) (uart_tx_room w) (usb_sendbuf w) v (gpio_boot w)
    (gpio_rst w) (cdc_rx w) (cdc_tx w) (calls w).

Definition set_gpio (pin : gpio_num_t) (v : bool) (w : world) : world :=
  mk_world (serial_init_finished w) (serial_read_enabled w) (uart_queue w)
    (uart_rx w) (uart_tx w) (uart_tx_room w) (usb_sendbuf w)
    (state_change_timer w)
    (match pin with GPIO_BOOT => v | GPIO_RST => gpio_boot w end)
    (match pin with GPIO_BOOT => gpio_rst w | GPIO_RST => v end)
    (cdc_rx w) (cdc_tx w) (calls w).

Definition set_cdc_rx (v : list uint8_t) (w : world) : world :=
  mk_world (serial_init_finished w) (serial_read_enabled w) (uart_queue w)
    (uart_rx w) (uart_tx w) (uart_tx_room w) (usb_sendbuf w)
    (state_change_timer w) (gpio_boot w) (gpio_rst w) v (cdc_tx w) (calls w).

Definition set_cdc_tx (v : H) (w : world) : world :=
  mk_world (serial_init_finished w) (serial_read_enabled w) (uart_queue w)
    (uart_rx w) (uart_tx w) (uart_tx_room w) (usb_sendbuf w)
    (state_change_timer w) (gpio_boot w) (gpio_rst w) (cdc_rx w) v (calls w).

Definition set_calls (v : list api_call) (w : world) : world :=
  mk_world (serial_init_finished w) (serial_read_enabled w) (uart_queue w)
    (uart_rx w) (uart_tx w) (uart_tx_room w) (usb_sendbuf w)
    (state_change_timer w) (gpio_boot w) (gpio_rst w) (cdc_rx w) (cdc_tx w) v.

(** ** The monad

    A computation either returns, or it stops: the task waits without limit
    for something this step does not bring ([Blocked]), the program is
    aborted ([Aborted]), or the bound put on a loop of the model is used up
    ([OutOfFuel]).  The world at that point is kept in each case. *)

Inductive halt := Blocked | Aborted | OutOfFuel.

Inductive outcome (A : Type) :=
| Done (a : A) (w : world)
| Halt (why : halt) (w : world).

Arguments Done {A} a w.
Arguments Halt {A} why w.

Definition M (A : Type) : Type := world -> outcome A.

Definition ret {A : Type} (a : A) : M A := fun w => Done a w.

Definition bind {A B : Type} (m : M A) (k : A -> M B) : M B :=
  fun w =>
    match m w with
    | Done a w' => k a w'
    | Halt why w' => Halt why w'
    end.

Definition world_of {A : Type} (o : outcome A) : world :=
  match o with
  | Done _ w => w
  | Halt _ w => w
  end.

Definition stop {A : Type} (why : halt) : M A := fun w => Halt why w.

Definition call (c : api_call) : M unit :=
  fun w => Done tt (set_calls (calls w ++ [c]) w).

Notation "x <- m ;; k" := (bind m (fun x => k))
  (at level 61, m at next level, right associativity).
Notation "m ;; k" := (bind m (fun _ => k))
  (at level 61, right associativity).

(** ** The libraries, by their contracts *)

(** [ESP_LOGx(TAG, fmt, args...)]. *)
Definition ESP_LOG (lvl : log_level) (fmt : string) (args : list Z) : M unit :=
  call (c_log lvl fmt args).

(** [xQueueReceive(uart_queue, &event, wait)]: the oldest event, if there is
    one; on an empty queue it waits, without limit under [portMAX_DELAY]. *)
Definition xQueueReceive (wait : TickType_t) : M (option uart_event_t) :=
  call (c_xQueueReceive wait) ;;
  fun w =>
    match uart_queue w with
    | event :: q => Done (Some event) (set_uart_queue q w)
    | [] =>
        match wait with
        | portMAX_DELAY => Halt Blocked w
        | pdMS_TO_TICKS _ => Done None w
        end
    end.

(** [xQueueReset(uart_queue)]. *)
Definition xQueueReset : M unit :=
  call c_xQueueReset ;;
  fun w => Done tt (set_uart_queue [] w).

(** [uart_read_bytes(port, buf, length, wait)]: returns [length] bytes as
    soon as the driver holds that many; otherwise it waits for the rest,
    without limit under [portMAX_DELAY], and with a limit returns what is
    there.  The result is the number of bytes and the bytes. *)
Definition uart_read_bytes (length : Z) (wait : TickType_t)
  : M (Z * list uint8_t) :=
  call (c_uart_read_bytes length wait) ;;
  fun w =>
    if length <=? len (uart_rx w) then
      Done (len (take length (uart_rx w)), take length (uart_rx w))
           (set_uart_rx (drop length (uart_rx w)) w)
    else
      match wait with
      | portMAX_DELAY => Halt Blocked w
      | pdMS_TO_TICKS _ => Done (len (uart_rx w), uart_rx w) (set_uart_rx [] w)
      end.

(** [uart_write_bytes(port, buf, size)]: the number of bytes the port took. *)
Definition uart_write_bytes (buf : list uint8_t) (size : Z) : M Z :=
  call (c_uart_write_bytes size) ;;
  fun w =>
    let n := Z.max 0 (Z.min size (uart_tx_room w)) in
    Done n (set_uart_tx (uart_tx w ++ take n buf) (uart_tx_room w - n) w).

(** [uart_flush_input(port)]: drops what the driver holds. *)
Definition uart_flush_input : M unit :=
  call c_uart_flush_input ;;
  fun w => Done tt (set_uart_rx [] w).

(** [xRingbufferCreate(size, RINGBUF_TYPE_BYTEBUF)]: [created] says whether
    the allocation worked. *)
Definition xRingbufferCreate (size : Z) (created : bool) : M bool :=
  call (c_xRingbufferCreate size) ;;
  fun w => if created then Done true (set_usb_sendbuf [] w) else Done false w.

(** [xRingbufferSend(usb_sendbuf, data, size, wait)]: the whole item or
    nothing.  It waits for room for [size] bytes; the consumer does not run
    inside the producer's step, so room that is missing stays missing for
    the whole wait. *)
Definition xRingbufferSend (data : list uint8_t) (size : Z) (wait : TickType_t)
  : M bool :=
  call (c_xRingbufferSend size wait) ;;
  fun w =>
    if size <=? USB_SEND_RINGBUFFER_SIZE - len (usb_sendbuf w) then
      Done true (set_usb_sendbuf (usb_sendbuf w ++ take size data) w)
    else
      match wait with
      | portMAX_DELAY => Halt Blocked w
      | pdMS_TO_TICKS _ => Done false w
      end.

(** [xRingbufferGetCurFreeSize(usb_sendbuf)]. *)
Definition xRingbufferGetCurFreeSize : M Z :=
  call c_xRingbufferGetCurFreeSize ;;
  fun w => Done (USB_SEND_RINGBUFFER_SIZE - len (usb_sendbuf w)) w.

(** [xRingbufferReceiveUpTo(usb_sendbuf, &size, wait, max_size)]: the oldest
    bytes, at most [max_size] of them, or nothing after the wait.  The bytes
    stay in the buffer until the item is returned. *)
Definition xRingbufferReceiveUpTo (wait : TickType_t) (max_size : Z)
  : M (option (list uint8_t)) :=
  call (c_xRingbufferReceiveUpTo wait max_size) ;;
  fun w =>
    match take max_size (usb_sendbuf w) with
    | [] =>
        match wait with
        | portMAX_DELAY => Halt Blocked w
        | pdMS_TO_TICKS _ => Done None w
        end
    | item => Done (Some item) w
    end.

(** [vRingbufferReturnItem(usb_sendbuf, item)]: frees the item's bytes. *)
Definition vRingbufferReturnItem (item : list uint8_t) : M unit :=
  call (c_vRingbufferReturnItem (len item)) ;;
  fun w => Done tt (set_usb_sendbuf (drop (len item) (usb_sendbuf w)) w).

Definition vTaskDelay (wait : TickType_t) : M unit := call (c_vTaskDelay wait).

Definition taskYIELD : M unit := call c_taskYIELD.

Definition xTaskCreate (name : string) (stack prio : Z) : M unit :=
  call (c_xTaskCreate name stack prio).

Definition vTaskDelete : M unit := call c_vTaskDelete.

(** [tud_cdc_n_read(itf, buf, bufsize)]: at most [bufsize] of the bytes the
    host sent. *)
Definition tud_cdc_n_read (itf : Z) (bufsize : Z) : M (list uint8_t) :=
  call (c_tud_cdc_n_read itf bufsize) ;;
  fun w => Done (take bufsize (cdc_rx w)) (set_cdc_rx (drop bufsize (cdc_rx w)) w).

Definition tud_cdc_write_available : M Z :=
  call c_tud_cdc_write_available ;;
  fun w => Done (host_write_available (cdc_tx w)) w.

(** [tud_cdc_write(buf, size)]. *)
Definition tud_cdc_write (buf : list uint8_t) (size : Z) : M Z :=
  call (c_tud_cdc_write size) ;;
  fun w =>
    let r := host_write (take size buf) (cdc_tx w) in
    Done (fst r) (set_cdc_tx (snd r) w).

Definition tud_cdc_write_flush : M unit :=
  call c_tud_cdc_write_flush ;;
  fun w => Done tt (set_cdc_tx (host_write_flush (cdc_tx w)) w).

Definition ets_delay_us (us : Z) : M unit :=
  call (c_ets_delay_us us) ;;
  fun w => Done tt (set_cdc_tx (host_wait us (cdc_tx w)) w).

(** [esp_timer_create]: the timer exists and is not armed. *)
Definition esp_timer_create (name : string) : M esp_err_t :=
  call (c_esp_timer_create name) ;;
  fun w => Done ESP_OK (set_state_change_timer None w).

(** [esp_timer_stop]: disarms; an error, and no change, when the timer is
    not armed. *)
Definition esp_timer_stop : M esp_err_t :=
  call c_esp_timer_stop ;;
  fun w =>
    match state_change_timer w with
    | Some _ => Done ESP_OK (set_state_change_timer None w)
    | None => Done ESP_ERR_INVALID_STATE w
    end.

(** [esp_timer_start_once(timer, us)]: arms; an error, and no change, when
    the timer is armed already. *)
Definition esp_timer_start_once (timeout_us : Z) : M esp_err_t :=
  call (c_esp_timer_start_once timeout_us) ;;
  fun w =>
    match state_change_timer w with
    | Some _ => Done ESP_ERR_INVALID_STATE w
    | None => Done ESP_OK (set_state_change_timer (Some timeout_us) w)
    end.

(** [ESP_ERROR_CHECK(x)]: aborts unless [x] is [ESP_OK]. *)
Definition ESP_ERROR_CHECK (x : esp_err_t) : M unit :=
  if esp_err_eqb x ESP_OK then ret tt else stop Aborted.

Definition gpio_set_level (pin : gpio_num_t) (level : bool) : M unit :=
  call (c_gpio_set_level pin level) ;;
  fun w => Done tt (set_gpio pin level w).

(** [loader_port_esp32_init(&serial_conf)]: [result] is the library's
    answer. *)
Definition loader_port_esp32_init (baud rx_buffer_size queue_size : Z)
  (result : esp_loader_error_t) : M esp_loader_error_t :=
  call (c_loader_port_esp32_init baud rx_buffer_size queue_size) ;;
  ret result.

(** [uart_set_baudrate(port, baud)]: [result] is the driver's answer. *)
Definition uart_set_baudrate (baud : Z) (result : esp_err_t) : M esp_err_t :=
  call (c_uart_set_baudrate baud) ;;
  ret result.

(** Modelled from the spec: [eub_abort] is declared in util.h, which is not
    among the sources.  Section 7 of the specification: a failure of the
    initialization is fatal and halts the process. *)
Definition eub_abort : M unit :=
  call c_eub_abort ;;
  stop Aborted.

(** ** serial.c *)

(** The [switch] of [uart_event_task] on a received event, followed by
    [taskYIELD()]. *)
Definition uart_event_switch (event : uart_event_t) : M unit :=
  match ev_type event with
  | UART_DATA =>
      fun w =>
        if serial_read_enabled w then
          (r <- uart_read_bytes (ev_size event) portMAX_DELAY ;;
           let read := int32 (fst r) in
           let dtmp := snd r in
           ESP_LOG LOGD "UART -> CDC ringbuffer (%d bytes)" [ev_size event] ;;
           sent <- xRingbufferSend dtmp (uint32 read) (pdMS_TO_TICKS 10) ;;
           if sent then ret tt
           else
             free <- xRingbufferGetCurFreeSize ;;
             ESP_LOG LOGW "Cannot write to ringbuffer (free %d of %d)!"
               [free; USB_SEND_RINGBUFFER_SIZE] ;;
             vTaskDelay (pdMS_TO_TICKS 10)) w
        else Done tt w
  | UART_FIFO_OVF =>
      ESP_LOG LOGW "UART FIFO overflow" [] ;;
      uart_flush_input ;;
      xQueueReset
  | UART_BUFFER_FULL =>
      ESP_LOG LOGW "UART ring buffer full" [] ;;
      uart_flush_input ;;
      xQueueReset
  | UART_BREAK => ESP_LOG LOGW "UART RX break" []
  | UART_PARITY_ERR => ESP_LOG LOGW "UART parity error" []
  | UART_FRAME_ERR => ESP_LOG LOGW "UART frame error" []
  | UART_OTHER code => ESP_LOG LOGW "UART event type: %d" [code]
  end.

(** One turn of the [while (1)] of [uart_event_task]. *)
Definition uart_event_task : M unit :=
  received <- xQueueReceive portMAX_DELAY ;;
  match received with
  | Some event => uart_event_switch event ;; taskYIELD
  | None => ret tt
  end ;;
  vTaskDelay (pdMS_TO_TICKS 10).

(** The [for] loop of [usb_sender_task] over one chunk.  [fuel] bounds the
    number of turns of the model; the loop of the source has no bound of
    its own. *)
Fixpoint usb_send_chunk (fuel : nat) (int_buf : list uint8_t)
  (ringbuf_received transferred to_send try_cnt : Z) : M unit :=
  match fuel with
  | O => stop OutOfFuel
  | S fuel' =>
      if uint32 transferred <? ringbuf_received then
        avail <- tud_cdc_write_available ;;
        let short := avail <? uint32 to_send in
        let try_cnt' := if short then uint32 (try_cnt + 1) else try_cnt in
        if short && (try_cnt' <? 10) then
          tud_cdc_write_flush ;;
          ets_delay_us 100 ;;
          usb_send_chunk fuel' int_buf ringbuf_received transferred to_send
            try_cnt'
        else
          written <- tud_cdc_write (drop transferred int_buf) (uint32 to_send) ;;
          let t := int32 written in
          ESP_LOG LOGD "CDC ringbuffer -> CDC (%d bytes)" [t] ;;
          usb_send_chunk fuel' int_buf ringbuf_received
            (int32 (transferred + t)) (int32 (to_send - t)) 0
      else ret tt
  end.

(** One turn of the [while (1)] of [usb_sender_task]. *)
Definition usb_sender_task (fuel : nat) : M unit :=
  buf <- xRingbufferReceiveUpTo (pdMS_TO_TICKS 100) CONFIG_USB_CDC_TX_BUFSIZE ;;
  match buf with
  | Some item =>
      let ringbuf_received := len item in
      let int_buf := item in
      vRingbufferReturnItem item ;;
      usb_send_chunk fuel int_buf ringbuf_received 0 (int32 ringbuf_received) 0 ;;
      tud_cdc_write_flush
  | None =>
      ESP_LOG LOGD "usb_sender_task: nothing to send" [] ;;
      vTaskDelay (pdMS_TO_TICKS 100)
  end.

Definition tud_cdc_rx_cb (itf : Z) : M unit :=
  fun w =>
    if negb (serial_init_finished w) then
      ESP_LOG LOGW "Tasks for the serial interface hasn't been initialized!" [] w
    else
      (buf <- tud_cdc_n_read itf CONFIG_USB_CDC_RX_BUFSIZE ;;
       let rx_size := uint32 (len buf) in
       if 0 <? rx_size then
         ESP_LOG LOGD "CDC -> UART (%d bytes)" [rx_size] ;;
         written <- uart_write_bytes buf rx_size ;;
         let transferred := int32 written in
         if negb (uint32 transferred =? rx_size) then
           ESP_LOG LOGW "uart_write_bytes transferred %d bytes only!"
             [transferred]
         else ret tt
       else ESP_LOG LOGW "tud_cdc_rx_cb receive error" []) w.

Definition tud_cdc_line_state_cb (itf : Z) (dtr rts : bool) : M unit :=
  fun w =>
    if negb (serial_init_finished w) then
      ESP_LOG LOGW "Tasks for the serial interface hasn't been initialized!" [] w
    else
      (let rst := if negb dtr && rts then false
                  else if dtr && negb rts then true else true in
       let boot := if negb dtr && rts then true
                   else if dtr && negb rts then false else true in
       _ <- esp_timer_stop ;;
       if andb dtr rts then
         started <- esp_timer_start_once (10 * 1000) ;;
         ESP_ERROR_CHECK started
       else
         ESP_LOG LOGI "DTR = %d, RTS = %d -> BOOT = %d, RST = %d"
           [Z_of_bool dtr; Z_of_bool rts; Z_of_bool boot; Z_of_bool rst] ;;
         gpio_set_level GPIO_BOOT boot ;;
         gpio_set_level GPIO_RST rst) w.

Definition state_change_timer_cb : M unit :=
  ESP_LOG LOGI "BOOT = 1, RST = 1" [] ;;
  gpio_set_level GPIO_BOOT true ;;
  gpio_set_level GPIO_RST true.

Definition init_state_change_timer : M unit :=
  created <- esp_timer_create "serial_state_change" ;;
  ESP_ERROR_CHECK created.

(** [loader] and [ringbuffer] are the answers of the two calls that can
    fail. *)
Definition start_serial_task (loader : esp_loader_error_t) (ringbuffer : bool)
  : M unit :=
  r <- loader_port_esp32_init 115200 (SLAVE_UART_BUF_SIZE * 2) 20 loader ;;
  match r with
  | ESP_LOADER_SUCCESS =>
      ESP_LOG LOGI "UART & GPIO have been initialized" [] ;;
      gpio_set_level GPIO_RST true ;;
      gpio_set_level GPIO_BOOT true ;;
      init_state_change_timer ;;
      created <- xRingbufferCreate USB_SEND_RINGBUFFER_SIZE ringbuffer ;;
      (if created then
         xTaskCreate "usb_sender_task" (4 * 1024) 5 ;;
         xTaskCreate "uart_event_task" (8 * 1024) 5
       else
         ESP_LOG LOGE "Cannot create ringbuffer for USB sender" [] ;;
         eub_abort) ;;
      (fun w => Done tt (set_serial_init_finished true w)) ;;
      (fun w => Done tt (set_serial_read_enabled true w))
  | ESP_LOADER_ERROR_FAIL =>
      ESP_LOG LOGE "loader_port_serial_init failed" [] ;;
      eub_abort
  end ;;
  vTaskDelete.

Definition serial_set (enable : bool) : M unit :=
  fun w => Done tt (set_serial_read_enabled enable w).

Definition serial_set_baudrate (baud : Z) (driver : esp_err_t) : M bool :=
  r <- uart_set_baudrate baud driver ;;
  ret (esp_err_eqb r ESP_OK).

(** ** What happens around the code *)

(** The UART driver's interrupt handler: received bytes go into the
    driver's buffer and an event is posted.  The queue was created for 20
    events ([queue_size]); an event that finds it full is not posted. *)
Definition uart_isr (event : uart_event_t) (bytes : list uint8_t) : M unit :=
  fun w =>
    let w' := set_uart_rx (uart_rx w ++ bytes) w in
    Done tt (if len (uart_queue w) <? 20
             then set_uart_queue (uart_queue w ++ [event]) w'
             else w').

(** The timer service after [us] more microseconds: an armed timer that is
    due is disarmed and its callback runs, once. *)
Definition esp_timer_elapse (us : Z) : M unit :=
  fun w =>
    match state_change_timer w with
    | Some due =>
        if due <=? us then state_change_timer_cb (set_state_change_timer None w)
        else Done tt (set_state_change_timer (Some (due - us)) w)
    | None => Done tt w
    end.

(** The host sends bytes: TinyUSB stores them and notifies. *)
Definition usb_receive (itf : Z) (bytes : list uint8_t) : M unit :=
  (fun w => Done tt (set_cdc_rx (cdc_rx w ++ bytes) w)) ;;
  tud_cdc_rx_cb itf.

(** The things that can happen once the bridge is running, one at a time. *)
Inductive op :=
| op_uart_isr (event : uart_event_t) (bytes : list uint8_t)
| op_uart_event_task
| op_usb_sender_task (fuel : nat)
| op_usb_receive (itf : Z) (bytes : list uint8_t)
| op_line_state (itf : Z) (dtr rts : bool)
| op_elapse (us : Z)
| op_serial_set (enable : bool)
| op_serial_set_baudrate (baud : Z) (driver : esp_err_t).

(** A task that waits on the empty event queue does not run. *)
Definition exec (o : op) : M unit :=
  match o with
  | op_uart_isr event bytes => uart_isr event bytes
  | op_uart_event_task =>
      fun w =>
        match uart_queue w with
        | [] => Done tt w
        | _ :: _ => uart_event_task w
        end
  | op_usb_sender_task fuel => usb_sender_task fuel
  | op_usb_receive itf bytes => usb_receive itf bytes
  | op_line_state itf dtr rts => tud_cdc_line_state_cb itf dtr rts
  | op_elapse us => esp_timer_elapse us
  | op_serial_set enable => serial_set enable
  | op_serial_set_baudrate baud driver =>
      _ <- serial_set_baudrate baud driver ;; ret tt
  end.

Fixpoint run (os : list op) : M unit :=
  match os with
  | [] => ret tt
  | o :: os' => exec o ;; run os'
  end.

(** The levels of (BOOT, RST) after each call of a trace, from the levels
    before it. *)
Fixpoint gpio_levels (boot rst : bool) (tr : list api_call)
  : list (bool * bool) :=
  match tr with
  | [] => []
  | c_gpio_set_level GPIO_BOOT v :: tr' => (v, rst) :: gpio_levels v rst tr'
  | c_gpio_set_level GPIO_RST v :: tr' => (boot, v) :: gpio_levels boot v tr'
  | _ :: tr' => gpio_levels boot rst tr'
  end.

(** ** Frames *)

(** Everything the relay owns is the same in both worlds: the flags, the
    UART side, the ring buffer and the USB side. *)
Definition same_relay (w w' : world) : Prop :=
  serial_init_finished w' = serial_init_finished w /\
  serial_read_enabled w' = serial_read_enabled w /\
  uart_queue w' = uart_queue w /\
  uart_rx w' = uart_rx w /\
  uart_tx w' = uart_tx w /\
  uart_tx_room w' = uart_tx_room w /\
  usb_sendbuf w' = usb_sendbuf w /\
  cdc_rx w' = cdc_rx w /\
  cdc_tx w' = cdc_tx w.

(** The signal side is the same in both worlds: the timer and the two
    levels. *)
Definition same_signals (w w' : world) : Prop :=
  state_change_timer w' = state_change_timer w /\
  gpio_boot w' = gpio_boot w /\
  gpio_rst w' = gpio_rst w.

Definition line_state_fmt : string := "DTR = %d, RTS = %d -> BOOT = %d, RST = %d".

Definition not_initialized_fmt : string :=
  "Tasks for the serial interface hasn't been initialized!".

(** ** Worlds and traces named in the statements *)

(** The world the handler leaves, when the bridge is initialized. *)
Definition line_state_result (dtr rts : bool) (w : world) : world :=
  if dtr && rts then
    set_state_change_timer (Some 10000)
      (set_calls (calls w ++ [c_esp_timer_stop; c_esp_timer_start_once 10000]) w)
  else
    let boot := negb (dtr && negb rts) in
    let rst := negb (negb dtr && rts) in
    set_gpio GPIO_RST rst
      (set_gpio GPIO_BOOT boot
         (set_calls
            (calls w ++
               [c_esp_timer_stop;
                c_log LOGI line_state_fmt
                  [Z_of_bool dtr; Z_of_bool rts; Z_of_bool boot; Z_of_bool rst];
                c_gpio_set_level GPIO_BOOT boot;
                c_gpio_set_level GPIO_RST rst])
            (set_state_change_timer None w))).

(** The world the timer's callback leaves. *)
Definition timer_cb_result (w : world) : world :=
  set_gpio GPIO_RST true
    (set_gpio GPIO_BOOT true
       (set_calls
          (calls w ++
             [c_log LOGI "BOOT = 1, RST = 1" [];
              c_gpio_set_level GPIO_BOOT true;
              c_gpio_set_level GPIO_RST true]) w)).

Definition is_gpio_call (c : api_call) : bool :=
  match c with
  | c_gpio_set_level _ _ => true
  | _ => false
  end.

Definition total (waits : list Z) : Z := fold_right Z.add 0 waits.

(** The (1,1) samples seen in between, each followed by the time that
    passes before the next event. *)
Definition samples_1_1 (itf : Z) (gaps : list Z) : list op :=
  flat_map (fun g => [op_line_state itf true true; op_elapse g]) gaps.

(** Since the world [w1], nothing has touched a pin, and the levels are
    BOOT = 1, RST = 0. *)
Definition held_in_reset (w1 w' : world) : Prop :=
  serial_init_finished w' = true /\
  gpio_boot w' = true /\ gpio_rst w' = false /\
  exists tr,
    calls w' = calls w1 ++ tr /\
    forallb (fun c => negb (is_gpio_call c)) tr = true.

Definition data_calls (n : Z) : list api_call :=
  [c_uart_read_bytes n portMAX_DELAY;
   c_log LOGD "UART -> CDC ringbuffer (%d bytes)" [n];
   c_xRingbufferSend n (pdMS_TO_TICKS 10)].

Definition push_timeout_calls (free : Z) : list api_call :=
  [c_xRingbufferGetCurFreeSize;
   c_log LOGW "Cannot write to ringbuffer (free %d of %d)!"
     [free; USB_SEND_RINGBUFFER_SIZE];
   c_vTaskDelay (pdMS_TO_TICKS 10)].

(** The world after a DATA event of [n] bytes whose push found room. *)
Definition data_pushed (n : Z) (w : world) : world :=
  set_usb_sendbuf (usb_sendbuf w ++ take n (uart_rx w))
    (set_uart_rx (drop n (uart_rx w))
       (set_calls (calls w ++ data_calls n) w)).

(** The world after a DATA event of [n] bytes whose push timed out. *)
Definition data_dropped (n : Z) (w : world) : world :=
  set_uart_rx (drop n (uart_rx w))
    (set_calls
       (calls w ++ data_calls n ++
          push_timeout_calls (USB_SEND_RINGBUFFER_SIZE - len (usb_sendbuf w)))
       w).

(** The world after the task took the event at the head of the queue. *)
Definition event_taken (q : list uart_event_t) (w : world) : world :=
  set_uart_queue q (set_calls (calls w ++ [c_xQueueReceive portMAX_DELAY]) w).

(** The world after the end of a turn of the task. *)
Definition turn_ended (w : world) : world :=
  set_calls (calls w ++ [c_taskYIELD; c_vTaskDelay (pdMS_TO_TICKS 10)]) w.

Definition overflow_warning (t : uart_event_type_t) : string :=
  match t with
  | UART_BUFFER_FULL => "UART ring buffer full"
  | _ => "UART FIFO overflow"
  end.

(** The world after the switch handled an overflow event. *)
Definition resynchronized (t : uart_event_type_t) (w : world) : world :=
  set_uart_queue []
    (set_uart_rx []
       (set_calls
          (calls w ++
             [c_log LOGW (overflow_warning t) [];
              c_uart_flush_input; c_xQueueReset]) w)).

(** The world after a turn of the [for] loop that found too little room and
    had tries left: flush, wait 100 microseconds. *)
Definition retried (w : world) : world :=
  set_cdc_tx (host_wait 100 (host_write_flush (cdc_tx w)))
    (set_calls
       (calls w ++
          [c_tud_cdc_write_available; c_tud_cdc_write_flush;
           c_ets_delay_us 100]) w).

(** What [tud_cdc_write] is given in a turn that writes, and what it
    answers, as an [int]. *)
Definition offered (int_buf : list uint8_t) (transferred to_send : Z)
  : list uint8_t :=
  take (uint32 to_send) (drop transferred int_buf).

Definition accepted (int_buf : list uint8_t) (transferred to_send : Z)
  (w : world) : Z :=
  int32 (fst (host_write (offered int_buf transferred to_send) (cdc_tx w))).

(** The world after a turn of the [for] loop that writes. *)
Definition written (int_buf : list uint8_t) (transferred to_send : Z)
  (w : world) : world :=
  set_cdc_tx (snd (host_write (offered int_buf transferred to_send) (cdc_tx w)))
    (set_calls
       (calls w ++
          [c_tud_cdc_write_available; c_tud_cdc_write (uint32 to_send);
           c_log LOGD "CDC ringbuffer -> CDC (%d bytes)"
             [accepted int_buf transferred to_send w]]) w).

(** The calls of the USB port towards the host, and the log. *)
Definition host_side_call (c : api_call) : bool :=
  match c with
  | c_tud_cdc_write_available
  | c_tud_cdc_write _
  | c_tud_cdc_write_flush
  | c_ets_delay_us _
  | c_log _ _ _ => true
  | _ => false
  end.

(** Nothing but the port towards the host and the trace differ, and the
    trace has grown by calls of that port only. *)
Definition host_only (w w' : world) : Prop :=
  serial_init_finished w' = serial_init_finished w /\
  serial_read_enabled w' = serial_read_enabled w /\
  uart_queue w' = uart_queue w /\
  uart_rx w' = uart_rx w /\
  uart_tx w' = uart_tx w /\
  uart_tx_room w' = uart_tx_room w /\
  usb_sendbuf w' = usb_sendbuf w /\
  cdc_rx w' = cdc_rx w /\
  same_signals w w' /\
  exists tr,
    calls w' = calls w ++ tr /\ forallb host_side_call tr = true.

(** The world once the sender has taken an item out of the ring buffer and
    given it back: its bytes are gone from the buffer, the port towards the
    host has not been used yet. *)
Definition item_returned (item : list uint8_t) (w : world) : world :=
  set_usb_sendbuf (drop (len item) (usb_sendbuf w))
    (set_calls
       (calls w ++
          [c_xRingbufferReceiveUpTo (pdMS_TO_TICKS 100) CONFIG_USB_CDC_TX_BUFSIZE;
           c_vRingbufferReturnItem (len item)]) w).

(** What the sender does with the item it holds in [int_buf]. *)
Definition send_item (fuel : nat) (item : list uint8_t) : M unit :=
  usb_send_chunk fuel item (len item) 0 (int32 (len item)) 0 ;;
  tud_cdc_write_flush.

(** The world after the warning of a callback that came too early. *)
Definition warned (w : world) : world :=
  set_calls (calls w ++ [c_log LOGW not_initialized_fmt []]) w.

(** The calls of the forwarder for a slice of which the UART took [n]
    bytes. *)
Definition forward_calls (itf : Z) (slice : list uint8_t) (n : Z)
  : list api_call :=
  match slice with
  | [] =>
      [c_tud_cdc_n_read itf CONFIG_USB_CDC_RX_BUFSIZE;
       c_log LOGW "tud_cdc_rx_cb receive error" []]
  | _ :: _ =>
      [c_tud_cdc_n_read itf CONFIG_USB_CDC_RX_BUFSIZE;
       c_log LOGD "CDC -> UART (%d bytes)" [len slice];
       c_uart_write_bytes (len slice)] ++
      (if n =? len slice then []
       else [c_log LOGW "uart_write_bytes transferred %d bytes only!" [n]])
  end.

(** The world the forwarder leaves, when the bridge is initialized. *)
Definition forwarded (itf : Z) (w : world) : world :=
  let slice := take CONFIG_USB_CDC_RX_BUFSIZE (cdc_rx w) in
  let n := Z.max 0 (Z.min (len slice) (uart_tx_room w)) in
  let w1 := set_cdc_rx (drop CONFIG_USB_CDC_RX_BUFSIZE (cdc_rx w))
              (set_calls (calls w ++ forward_calls itf slice n) w) in
  match slice with
  | [] => w1
  | _ :: _ => set_uart_tx (uart_tx w ++ take n slice) (uart_tx_room w - n) w1
  end.

(** The things that can happen while reading stays disabled, apart from the
    sender taking bytes out of the ring buffer for the host. *)
Definition bystander (o : op) : bool :=
  match o with
  | op_usb_sender_task _ => false
  | op_serial_set enable => negb enable
  | _ => true
  end.

(** The world left by [start_serial_task] when both calls that can fail
    succeed. *)
Definition started (w : world) : world :=
  set_serial_read_enabled true
    (set_serial_init_finished true
       (set_usb_sendbuf []
          (set_state_change_timer None
             (set_gpio GPIO_BOOT true
                (set_gpio GPIO_RST true
                   (set_calls
                      (calls w ++
                         [c_loader_port_esp32_init 115200
                            (SLAVE_UART_BUF_SIZE * 2) 20;
                          c_log LOGI "UART & GPIO have been initialized" [];
                          c_gpio_set_level GPIO_RST true;
                          c_gpio_set_level GPIO_BOOT true;
                          c_esp_timer_create "serial_state_change";
                          c_xRingbufferCreate USB_SEND_RINGBUFFER_SIZE;
                          c_xTaskCreate "usb_sender_task" (4 * 1024) 5;
                          c_xTaskCreate "uart_event_task" (8 * 1024) 5;
                          c_vTaskDelete]) w)))))).

(** The calls that wait for something: an event, bytes, room. *)
Definition can_wait (c : api_call) : bool :=
  match c with
  | c_xQueueReceive _
  | c_uart_read_bytes _ _
  | c_xRingbufferSend _ _
  | c_xRingbufferReceiveUpTo _ _ => true
  | _ => false
  end.

(** The wait such a call is made with. *)
Definition wait_of (c : api_call) : option TickType_t :=
  match c with
  | c_xQueueReceive t
  | c_uart_read_bytes _ t
  | c_xRingbufferSend _ t
  | c_xRingbufferReceiveUpTo t _ => Some t
  | _ => None
  end.

Definition ring_buffer_call (c : api_call) : bool :=
  match c with
  | c_xRingbufferSend _ _
  | c_xRingbufferReceiveUpTo _ _ => true
  | _ => false
  end.

(** A turn of a task in which nothing waits without bound: the turn
    returns, and each of its calls that waits is a push or a pop of the ring
    buffer, made with a bounded wait. *)
Definition waits_bounded (turn : M unit) (w : world) : Prop :=
  (exists w', turn w = Done tt w') /\
  forall tr c,
    calls (world_of (turn w)) = calls w ++ tr ->
    In c tr ->
    can_wait c = true ->
    ring_buffer_call c = true /\
    exists t, wait_of c = Some t /\ bounded_wait t = true.

(** A world in the window of [start_serial_task] where the two tasks exist
    and the two flags are not set yet; the UART driver holds the byte [b]
    and has announced it. *)
Definition tasks_just_created (b : uint8_t) (h : H) : world :=
  set_uart_queue [mk_event UART_DATA 1]
    (set_uart_rx [b]
       (mk_world false false [] [] [] 0 [] None true true [] h [])).

(** ** More of the run-time behaviour *)

(** The events of the UART driver that report a disturbance of the line:
    the cases of the [switch] that only log. *)
Definition line_noise (t : uart_event_type_t) : bool :=
  match t with
  | UART_BREAK | UART_PARITY_ERR | UART_FRAME_ERR | UART_OTHER _ => true
  | UART_DATA | UART_FIFO_OVF | UART_BUFFER_FULL => false
  end.

(** The warning the [switch] logs for such an event. *)
Definition noise_warning (t : uart_event_type_t) : api_call :=
  match t with
  | UART_BREAK => c_log LOGW "UART RX break" []
  | UART_PARITY_ERR => c_log LOGW "UART parity error" []
  | UART_FRAME_ERR => c_log LOGW "UART frame error" []
  | UART_OTHER code => c_log LOGW "UART event type: %d" [code]
  | _ => c_log LOGW "" []
  end.



(** The retries of the sender stay within the budget: scanning a trace with
    [streak] retries made since the last write, no write is preceded by
    more than 9 waits. *)
Fixpoint retries_within_budget (streak : Z) (tr : list api_call) : bool :=
  match tr with
  | [] => true
  | c_ets_delay_us _ :: tr' =>
      (streak + 1 <=? 9) && retries_within_budget (streak + 1) tr'
  | c_tud_cdc_write _ :: tr' => retries_within_budget 0 tr'
  | _ :: tr' => retries_within_budget streak tr'
  end.


(** The DATA event the UART driver posts for received bytes. *)
Definition data_event (bytes : list uint8_t) : uart_event_t :=
  mk_event UART_DATA (len bytes).

(** The driver receives the chunks one after the other and posts an event
    for each. *)
Definition uart_posts (chunks : list (list uint8_t)) : list op :=
  map (fun bytes => op_uart_isr (data_event bytes) bytes) chunks.

(** [k] turns of the relay loop. *)
Definition relay_turns (k : nat) : list op := repeat op_uart_event_task k.

(** The host sends the chunks one after the other. *)
Definition host_sends (itf : Z) (chunks : list (list uint8_t)) : list op :=
  map (op_usb_receive itf) chunks.

Definition is_task_create (c : api_call) : bool :=
  match c with
  | c_xTaskCreate _ _ _ => true
  | _ => false
  end.

End Model.

Arguments Done {H A} a w.
Arguments Halt {H A} why w.

Notation "x <- m ;; k" := (bind m (fun x => k))
  (at level 61, m at next level, right associativity).
Notation "m ;; k" := (bind m (fun _ => k))
  (at level 61, right associativity).

(** ** Two hosts *)

(** A host that has opened the port and does not read: TinyUSB's buffer is
    full and stays so. *)
Inductive stalled_host := Stalled.

#[export] Instance stalled_port : HostPort stalled_host := {|
  host_write_available := fun _ => 0;
  host_write := fun _ h => (0, h);
  host_write_flush := fun h => h;
  host_wait := fun _ h => h
|}.

(** A host that reads [pace] bytes in every wait of the sender, out of a
    buffer of [tx_ff_size] bytes. *)
Record reading_host := mk_host {
  tx_ff : list uint8_t;
  tx_ff_size : Z;
  pace : Z;
  host_got : list uint8_t
}.

#[export] Instance reading_port : HostPort reading_host := {|
  host_write_available := fun h => tx_ff_size h - len (tx_ff h);
  host_write := fun bs h =>
    let k := Z.max 0 (Z.min (len bs) (tx_ff_size h - len (tx_ff h))) in
    (k, mk_host (tx_ff h ++ take k bs) (tx_ff_size h) (pace h) (host_got h));
  host_write_flush := fun h => h;
  host_wait := fun _ h =>
    mk_host (drop (pace h) (tx_ff h)) (tx_ff_size h) (pace h)
      (host_got h ++ take (pace h) (tx_ff h))
|}.

(** The bridge after its initialization, nothing in flight; the host reads
    two bytes per wait out of a buffer of four. *)
Definition running : world :=
  mk_world true true [] [] [] 64 [] None true true []
    (mk_host [] 4 2 []) [].

(** The same, towards the host that does not read. *)
Definition running_stalled : world :=
  mk_world true true [] [] [] 64 [] None true true [] Stalled [].

Definition bytes_of (s : string) : list uint8_t := list_byte_of_string s.

(** A build configuration: 64 bytes for each of TinyUSB's buffers. *)
Definition bench_config : Sdkconfig := {|
  CONFIG_USB_CDC_TX_BUFSIZE := 64;
  CONFIG_USB_CDC_RX_BUFSIZE := 64
|}.

Definition is_write (c : api_call) : bool :=
  match c with
  | c_tud_cdc_write _ => true
  | _ => false
  end.

Definition is_retry (c : api_call) : bool :=
  match c with
  | c_ets_delay_us _ => true
  | _ => false
  end.

(** A DATA event of four bytes, the four bytes being there. *)
Definition data_ready : world :=
  set_uart_queue [mk_event UART_DATA 4] (set_uart_rx (bytes_of "boot") running).

(** A DATA event of four bytes, two of which are there. *)
Definition data_short : world :=
  set_uart_queue [mk_event UART_DATA 4] (set_uart_rx (bytes_of "bo") running).

(** An overflow event at the head of the queue, a DATA event behind it, and
    bytes both in the driver and in the ring buffer. *)
Definition overflowed : world :=
  set_usb_sendbuf (bytes_of "kept")
    (set_uart_queue [mk_event UART_FIFO_OVF 0; mk_event UART_DATA 4]
       (set_uart_rx (bytes_of "lost") running)).

(** Reading disabled, bytes waiting in the ring buffer. *)
Definition disabled : world :=
  set_serial_read_enabled false (set_usb_sendbuf (bytes_of "queued") running).

Definition while_disabled : list op :=
  [op_uart_isr (mk_event UART_DATA 4) (bytes_of "boot");
   op_uart_event_task;
   op_line_state 0 false true;
   op_usb_receive 0 (bytes_of "sync");
   op_elapse 500;
   op_serial_set false].

(** Five bytes from the host, the UART taking three. *)
Definition uart_short : world :=
  set_uart_tx [] 3 (set_cdc_rx (bytes_of "flash") running).

(** Six bytes in the ring buffer. *)
Definition to_send : world := set_usb_sendbuf (bytes_of "target") running.


(** The slowest host that still reads: its port never reports room and
    takes one byte of every write. *)
Record trickle_host := mk_trickle { trickled : list uint8_t }.

#[export] Instance trickle_port : HostPort trickle_host := {|
  host_write_available := fun _ => 0;
  host_write := fun bs h =>
    (len (take 1 bs), mk_trickle (trickled h ++ take 1 bs));
  host_write_flush := fun h => h;
  host_wait := fun _ h => h
|}.

(** The bridge after its initialization, towards that host. *)
Definition running_trickle : world :=
  mk_world true true [] [] [] 64 [] None true true [] (mk_trickle []) [].

(** A break reported by the UART driver, with bytes already relayed. *)
Definition line_broken : world :=
  set_usb_sendbuf (bytes_of "kept")
    (set_uart_queue [mk_event UART_BREAK 0] running).


(** * The LED of the board: ws2812/ws2812.c

    The state is what the code acts on through the libraries: the words put
    to the PIO state machine that drives the LEDs, oldest first, and the
    state of the C library's [rand]. *)

(** [uint8_t]. *)
Definition uint8 (z : Z) : Z := z mod 2 ^ 8.

(** [rand()] of the C library: a value and the next state. *)
Class Libc (R : Type) := {
  rand : R -> Z * R
}.

Section Ws2812.

Context {R : Type} {libc : Libc R}.

Record leds := mk_leds {
  rand_state : R;
  (** words handed to [pio_sm_put_blocking], oldest first *)
  pio_tx : list Z
}.

Definition put_pixel (pixel_grb : Z) (s : leds) : leds :=
  mk_leds (rand_state s)
    (pio_tx s ++ [uint32 (Z.shiftl (uint32 pixel_grb) 8)]).

Definition urgb_u32 (r g b : Z) : Z :=
  Z.lor
    (Z.lor (uint32 (Z.shiftl (uint32 (uint8 r)) 8))
           (uint32 (Z.shiftl (uint32 (uint8 g)) 16)))
    (uint32 (uint8 b)).

(** The [for] loop of [pattern_snakes]; [turns] is the number of turns
    left, [len - i]. *)
Fixpoint snakes_loop (turns : nat) (i len t : Z) (s : leds) : leds :=
  match turns with
  | O => s
  | S turns' =>
      if i <? len then
        let x := uint32 (i + Z.shiftr t 1) mod 64 in
        let s' :=
          if x <? 10 then put_pixel (urgb_u32 0xff 0 0) s
          else if (15 <=? x) && (x <? 25) then put_pixel (urgb_u32 0 0xff 0) s
          else if (30 <=? x) && (x <? 40) then put_pixel (urgb_u32 0 0 0xff) s
          else put_pixel 0 s in
        snakes_loop turns' (uint32 (i + 1)) len t s'
      else s
  end.

Definition pattern_snakes (len t : Z) (s : leds) : leds :=
  snakes_loop (Z.to_nat (uint32 len)) 0 (uint32 len) (uint32 t) s.

(** [rand()], from the state of the library. *)
Definition call_rand (s : leds) : Z * leds :=
  let r := rand (rand_state s) in
  (int32 (fst r), mk_leds (snd r) (pio_tx s)).

(** The [for] loop of [pattern_random]; the index is an [int], compared
    with the unsigned [len]. *)
Fixpoint random_loop (turns : nat) (i len : Z) (s : leds) : leds :=
  match turns with
  | O => s
  | S turns' =>
      if uint32 i <? len then
        let r := call_rand s in
        random_loop turns' (int32 (i + 1)) len (put_pixel (fst r) (snd r))
      else s
  end.

Definition pattern_random (len t : Z) (s : leds) : leds :=
  if negb (uint32 t mod 8 =? 0) then s
  else random_loop (Z.to_nat (uint32 len)) 0 (uint32 len) s.

Fixpoint sparkle_loop (turns : nat) (i len : Z) (s : leds) : leds :=
  match turns with
  | O => s
  | S turns' =>
      if uint32 i <? len then
        let r := call_rand s in
        sparkle_loop turns' (int32 (i + 1)) len
          (put_pixel (if negb (Z.rem (fst r) 16 =? 0) then 0 else 0xffffffff)
             (snd r))
      else s
  end.

Definition pattern_sparkle (len t : Z) (s : leds) : leds :=
  if negb (uint32 t mod 8 =? 0) then s
  else sparkle_loop (Z.to_nat (uint32 len)) 0 (uint32 len) s.

Fixpoint greys_loop (turns : nat) (i len max t : Z) (s : leds) : leds :=
  match turns with
  | O => s
  | S turns' =>
      if uint32 i <? len then
        let s' := put_pixel (uint32 (t * 0x10101)) s in
        let t' := uint32 (t + 1) in
        let t'' := if uint32 max <=? t' then 0 else t' in
        greys_loop turns' (int32 (i + 1)) len max t'' s'
      else s
  end.

Definition pattern_greys (len t : Z) (s : leds) : leds :=
  let max := 100 in
  let t := uint32 t mod uint32 max in
  greys_loop (Z.to_nat (uint32 len)) 0 (uint32 len) max t s.

Definition pattern_table : list ((Z -> Z -> leds -> leds) * string) :=
  [(pattern_snakes, "Snakes!");
   (pattern_random, "Random data");
   (pattern_sparkle, "Sparkles");
   (pattern_greys, "Greys")].

Definition ws2812_put_pixel (r g b : Z) (s : leds) : leds :=
  put_pixel (urgb_u32 r g b) s.

(** ** What the statements about the LED name *)

(** The word that lights one LED with the given levels: green, red and blue
    in the three upper bytes. *)
Definition grb_word (r g b : Z) : Z := g * 2 ^ 24 + r * 2 ^ 16 + b * 2 ^ 8.

(** The words a pattern adds for a strip of [len] LEDs at time [t]. *)
Definition frame (pat : Z -> Z -> leds -> leds) (len t : Z) (s : leds)
  : list Z :=
  skipn (List.length (pio_tx s)) (pio_tx (pat len t s)).

(** The position in the 64 steps of the snakes of LED [i] at time [t]. *)
Definition snake_step (i t : Z) : Z := (i + t / 2) mod 64.

(** The word of the snakes at a step: a red, a green and a blue snake of ten
    LEDs each, dark in between. *)
Definition snake_word (x : Z) : Z :=
  if x <? 10 then grb_word 255 0 0
  else if (15 <=? x) && (x <? 25) then grb_word 0 255 0
  else if (30 <=? x) && (x <? 40) then grb_word 0 0 255
  else 0.

(** The integers [i], [i + 1], ..., [n] of them. *)
Fixpoint count_from (i : Z) (n : nat) : list Z :=
  match n with
  | O => []
  | S n' => i :: count_from (i + 1) n'
  end.

(** [n] calls of [rand] from the state [r]: the values, and the state
    afterwards. *)
Fixpoint rand_values (n : nat) (r : R) : list Z * R :=
  match n with
  | O => ([], r)
  | S n' =>
      let v := rand r in
      let rest := rand_values n' (snd v) in
      (fst v :: fst rest, snd rest)
  end.

(** The word [pattern_sparkle] puts for a value of [rand]. *)
Definition sparkle_word (v : Z) : Z :=
  if Z.rem (int32 v) 16 =? 0 then 0xffffff00 else 0.

End Ws2812.

(** A linear congruential generator for [rand]. *)
#[export] Instance lcg : Libc Z := {|
  rand := fun seed =>
    let next := (seed * 1103515245 + 12345) mod 2 ^ 31 in
    (next / 65536, next)
|}.

(** A strip that has received nothing yet. *)
Definition dark : leds := mk_leds 1 [].

(** ** Tactics *)

Ltac run_monad :=
  unfold bind, call, ret, stop, ESP_LOG, ESP_ERROR_CHECK; simpl.

Ltac list_norm := repeat rewrite <- app_assoc; simpl.

(** Nested updates of a world, flattened into one record. *)
Ltac flatten_world :=
  cbv [set_serial_init_finished set_serial_read_enabled set_uart_queue
       set_uart_rx set_uart_tx set_usb_sendbuf set_state_change_timer
       set_gpio set_cdc_rx set_cdc_tx set_calls
       serial_init_finished serial_read_enabled uart_queue uart_rx uart_tx
       uart_tx_room usb_sendbuf state_change_timer gpio_boot gpio_rst cdc_rx
       cdc_tx calls].

Ltac open_world w :=
  destruct w as [fi re q rx tx room sb tm gb gr crx ctx cs];
  cbn [serial_init_finished serial_read_enabled uart_queue uart_rx uart_tx
       uart_tx_room usb_sendbuf state_change_timer gpio_boot gpio_rst cdc_rx
       cdc_tx calls] in *.

Ltac crunch :=
  repeat (simpl;
          match goal with
          | |- context [if ?c then _ else _] => destruct c eqn:?
          | |- context [match ?x with _ => _ end] => destruct x eqn:?
          end);
  simpl.

Ltac unfold_calls :=
  unfold xQueueReceive, xQueueReset, uart_read_bytes, uart_write_bytes,
    uart_flush_input, xRingbufferSend, xRingbufferGetCurFreeSize,
    xRingbufferReceiveUpTo, vRingbufferReturnItem, vTaskDelay, taskYIELD,
    tud_cdc_n_read, tud_cdc_write_available, tud_cdc_write,
    tud_cdc_write_flush, ets_delay_us, esp_timer_stop, esp_timer_start_once,
    gpio_set_level, uart_set_baudrate;
  run_monad.

Section Properties.

Context {H : Type} {port : HostPort H} {cfg : Sdkconfig}.

Local Abbreviation world := (@world H).

#[local] Arguments Z.add : simpl never.
#[local] Arguments Z.sub : simpl never.
#[local] Arguments Z.mul : simpl never.
#[local] Arguments Z.leb : simpl never.
#[local] Arguments Z.ltb : simpl never.
#[local] Arguments Z.eqb : simpl never.
#[local] Arguments Z.min : simpl never.
#[local] Arguments Z.max : simpl never.
#[local] Arguments uint32 : simpl never.
#[local] Arguments int32 : simpl never.
#[local] Arguments len : simpl never.
#[local] Arguments take : simpl never.
#[local] Arguments drop : simpl never.
#[local] Arguments USB_SEND_RINGBUFFER_SIZE : simpl never.
#[local] Arguments SLAVE_UART_BUF_SIZE : simpl never.

(** ** The signal translator *)

(** C2.  After initialization the line-state handler stops the timer before
    anything else; for (0,0), (0,1) and (1,0) it then sets BOOT and RST at
    once to (1,1), (1,0) and (0,1); for (1,1) it sets no level and arms the
    timer for 10000 microseconds, and the timer's callback, when it runs,
    sets BOOT = 1 and RST = 1. *)
Theorem line_state_cb_table (itf : Z) (dtr rts : bool) (w : world) :
  serial_init_finished w = true ->
  exists w',
    tud_cdc_line_state_cb itf dtr rts w = Done tt w' /\
    same_relay w w' /\
    match dtr, rts with
    | false, false =>
        calls w' = calls w ++
          [c_esp_timer_stop; c_log LOGI line_state_fmt [0; 0; 1; 1];
           c_gpio_set_level GPIO_BOOT true; c_gpio_set_level GPIO_RST true] /\
        gpio_boot w' = true /\ gpio_rst w' = true /\
        state_change_timer w' = None
    | false, true =>
        calls w' = calls w ++
          [c_esp_timer_stop; c_log LOGI line_state_fmt [0; 1; 1; 0];
           c_gpio_set_level GPIO_BOOT true; c_gpio_set_level GPIO_RST false] /\
        gpio_boot w' = true /\ gpio_rst w' = false /\
        state_change_timer w' = None
    | true, false =>
        calls w' = calls w ++
          [c_esp_timer_stop; c_log LOGI line_state_fmt [1; 0; 0; 1];
           c_gpio_set_level GPIO_BOOT false; c_gpio_set_level GPIO_RST true] /\
        gpio_boot w' = false /\ gpio_rst w' = true /\
        state_change_timer w' = None
    | true, true =>
        calls w' = calls w ++
          [c_esp_timer_stop; c_esp_timer_start_once 10000] /\
        gpio_boot w' = gpio_boot w /\ gpio_rst w' = gpio_rst w /\
        state_change_timer w' = Some 10000 /\
        exists w'',
          esp_timer_elapse 10000 w' = Done tt w'' /\
          calls w'' = calls w' ++
            [c_log LOGI "BOOT = 1, RST = 1" [];
             c_gpio_set_level GPIO_BOOT true; c_gpio_set_level GPIO_RST true] /\
          gpio_boot w'' = true /\ gpio_rst w'' = true /\
          state_change_timer w'' = None
    end.
Proof.
  intros Hinit.
  unfold tud_cdc_line_state_cb. rewrite Hinit. simpl.
  destruct dtr, rts; unfold esp_timer_stop, esp_timer_start_once,
    gpio_set_level; run_monad;
    destruct (state_change_timer w) eqn:Ht; simpl; rewrite ?Ht; run_monad;
    eexists; (split; [reflexivity|]); simpl;
    (split; [repeat split|]); list_norm;
    unfold esp_timer_elapse, state_change_timer_cb, gpio_set_level; run_monad;
    repeat split; list_norm; eauto 10.
Qed.

Lemma line_state_cb_initialized (itf : Z) (dtr rts : bool) (w : world) :
  serial_init_finished w = true ->
  tud_cdc_line_state_cb itf dtr rts w = Done tt (line_state_result dtr rts w).
Proof.
  intros Hinit.
  unfold tud_cdc_line_state_cb, line_state_result. rewrite Hinit. simpl.
  destruct w as [fi re q rx tx room sb tm gb gr crx ctx cs].
  destruct dtr, rts, tm; unfold esp_timer_stop, esp_timer_start_once,
    gpio_set_level; run_monad; flatten_world; list_norm; reflexivity.
Qed.

Lemma state_change_timer_cb_run (w : world) :
  state_change_timer_cb w = Done tt (timer_cb_result w).
Proof.
  destruct w as [fi re q rx tx room sb tm gb gr crx ctx cs].
  unfold state_change_timer_cb, timer_cb_result, gpio_set_level; run_monad.
  flatten_world; list_norm; reflexivity.
Qed.

Lemma elapse_idle (us : Z) (w : world) :
  state_change_timer w = None -> esp_timer_elapse us w = Done tt w.
Proof. intros Ht. unfold esp_timer_elapse. now rewrite Ht. Qed.

Lemma elapse_early (us due : Z) (w : world) :
  state_change_timer w = Some due -> us < due ->
  esp_timer_elapse us w = Done tt (set_state_change_timer (Some (due - us)) w).
Proof.
  intros Ht Hlt. unfold esp_timer_elapse. rewrite Ht.
  destruct (Z.leb_spec due us); [lia | reflexivity].
Qed.

Lemma elapse_due (us due : Z) (w : world) :
  state_change_timer w = Some due -> due <= us ->
  esp_timer_elapse us w
  = Done tt (timer_cb_result (set_state_change_timer None w)).
Proof.
  intros Ht Hle. unfold esp_timer_elapse. rewrite Ht.
  destruct (Z.leb_spec due us); [apply state_change_timer_cb_run | lia].
Qed.

Lemma run_app (os1 os2 : list op) (w : world) :
  run (os1 ++ os2) w = (run os1 ;; run os2) w.
Proof.
  revert w. induction os1 as [|o os1 IH]; intros w; simpl.
  - reflexivity.
  - unfold bind. destruct (exec o w) as [[] w'|why w'].
    + rewrite IH. reflexivity.
    + reflexivity.
Qed.

Lemma gpio_levels_skip (boot rst : bool) (tr tr' : list api_call) :
  forallb (fun c => negb (is_gpio_call c)) tr = true ->
  gpio_levels boot rst (tr ++ tr') = gpio_levels boot rst tr'.
Proof.
  induction tr as [|c tr IH]; simpl; intros Hq.
  - reflexivity.
  - apply andb_prop in Hq. destruct Hq as [Hc Hq].
    destruct c; simpl in Hc; try discriminate; auto.
Qed.

Lemma held_in_reset_sample (itf g : Z) (w1 w' : world) :
  held_in_reset w1 w' -> 0 <= g < 10 * 1000 ->
  exists w'',
    run [op_line_state itf true true; op_elapse g] w' = Done tt w'' /\
    held_in_reset w1 w''.
Proof.
  intros (Hinit & Hb & Hr & tr & Hc & Hq) Hg.
  simpl. unfold bind at 1.
  rewrite (line_state_cb_initialized itf true true w' Hinit).
  unfold bind, ret.
  rewrite (elapse_early g 10000) by (simpl; auto; lia).
  eexists; split; [reflexivity|].
  unfold held_in_reset; simpl. repeat split; auto.
  exists (tr ++ [c_esp_timer_stop; c_esp_timer_start_once 10000]).
  rewrite Hc, app_assoc. split; [reflexivity|].
  rewrite forallb_app, Hq. reflexivity.
Qed.

Lemma held_in_reset_samples (itf : Z) (gaps : list Z) (w1 : world) :
  Forall (fun g => 0 <= g < 10 * 1000) gaps ->
  forall w', held_in_reset w1 w' ->
  exists w'',
    run (samples_1_1 itf gaps) w' = Done tt w'' /\ held_in_reset w1 w''.
Proof.
  induction 1 as [|g gaps Hg _ IH]; intros w' Hw'.
  - exists w'. split; [reflexivity | assumption].
  - destruct (held_in_reset_sample itf g w1 w' Hw' Hg) as (wa & Hrun & Hwa).
    destruct (IH wa Hwa) as (wb & Hrunb & Hwb).
    exists wb. split; [|assumption].
    change (samples_1_1 itf (g :: gaps))
      with ([op_line_state itf true true; op_elapse g] ++ samples_1_1 itf gaps).
    rewrite run_app. unfold bind at 1. rewrite Hrun. exact Hrunb.
Qed.

Lemma run_elapse_idle (waits : list Z) (w : world) :
  state_change_timer w = None -> run (map op_elapse waits) w = Done tt w.
Proof.
  intros Ht. induction waits as [|a waits IH]; simpl.
  - reflexivity.
  - unfold bind. rewrite (elapse_idle a w Ht). exact IH.
Qed.

Lemma run_elapse_fires (waits : list Z) :
  Forall (fun g => 0 <= g) waits ->
  forall (due : Z) (w : world),
    state_change_timer w = Some due -> 0 < due <= total waits ->
    run (map op_elapse waits) w
    = Done tt (timer_cb_result (set_state_change_timer None w)).
Proof.
  induction 1 as [|a waits Ha _ IH]; intros due w Ht Hsum; simpl in *.
  - lia.
  - unfold bind. destruct (Z.le_gt_cases due a) as [Hle|Hgt].
    + rewrite (elapse_due a due w Ht Hle).
      apply run_elapse_idle. reflexivity.
    + rewrite (elapse_early a due w Ht) by lia.
      rewrite (IH (due - a)) by (simpl; auto; lia).
      reflexivity.
Qed.

(** C1.  On an initialized bridge, let (DTR,RTS) = (0,1) be followed, after
    any time, by any number of (1,1) samples, each followed within less than
    the 10000 microseconds of the timer by the next event, and then by (1,0).
    Between the two, no call touches a pin before the (1,0) handler does,
    and the levels (BOOT,RST) that handler goes through are (0,0) and (0,1):
    BOOT = 1 with RST = 1 never occurs.  And a (1,1) event followed only by
    the passing of time, 10000 microseconds or more in all, makes exactly
    the calls of one run of the timer's callback, which sets BOOT = 1 and
    RST = 1 and leaves the timer disarmed. *)
Theorem esptool_sequence_debounced
  (itf gap : Z) (gaps waits : list Z) (w : world) :
  serial_init_finished w = true ->
  0 <= gap ->
  Forall (fun g => 0 <= g < 10 * 1000) gaps ->
  Forall (fun g => 0 <= g) waits ->
  10 * 1000 <= total waits ->
  (exists w1 w2 tr,
     tud_cdc_line_state_cb itf false true w = Done tt w1 /\
     run (op_elapse gap ::
          samples_1_1 itf gaps ++ [op_line_state itf true false]) w1
     = Done tt w2 /\
     calls w2 = calls w1 ++ tr /\
     gpio_levels (gpio_boot w1) (gpio_rst w1) tr
     = [(false, false); (false, true)]) /\
  (exists w3,
     run (op_line_state itf true true :: map op_elapse waits) w = Done tt w3 /\
     calls w3 = calls w ++
       [c_esp_timer_stop; c_esp_timer_start_once 10000;
        c_log LOGI "BOOT = 1, RST = 1" [];
        c_gpio_set_level GPIO_BOOT true; c_gpio_set_level GPIO_RST true] /\
     gpio_boot w3 = true /\ gpio_rst w3 = true /\
     state_change_timer w3 = None).
Proof.
  intros Hinit Hgap Hgaps Hwaits Hsum. split.
  - set (w1 := line_state_result false true w).
    assert (Hheld : held_in_reset w1 w1).
    { repeat split; try assumption. exists []. now rewrite app_nil_r. }
    destruct (held_in_reset_samples itf gaps w1 Hgaps w1 Hheld)
      as (wa & Hrun & Hinit_a & Hb & Hr & tr & Hc & Hq).
    exists w1, (line_state_result true false wa),
      (tr ++ [c_esp_timer_stop; c_log LOGI line_state_fmt [1; 0; 0; 1];
              c_gpio_set_level GPIO_BOOT false;
              c_gpio_set_level GPIO_RST true]).
    split; [apply line_state_cb_initialized; assumption|].
    split.
    + change (run (op_elapse gap ::
                   samples_1_1 itf gaps ++ [op_line_state itf true false]) w1)
        with ((esp_timer_elapse gap ;;
               run (samples_1_1 itf gaps ++ [op_line_state itf true false]))
                w1).
      unfold bind at 1. rewrite elapse_idle by reflexivity.
      rewrite run_app. unfold bind at 1. rewrite Hrun.
      simpl. unfold bind, ret.
      rewrite (line_state_cb_initialized itf true false wa Hinit_a).
      reflexivity.
    + split.
      * simpl. rewrite Hc. now rewrite <- app_assoc.
      * rewrite gpio_levels_skip by assumption. reflexivity.
  - exists (timer_cb_result
              (set_state_change_timer None (line_state_result true true w))).
    split.
    + simpl. unfold bind at 1.
      rewrite (line_state_cb_initialized itf true true w Hinit).
      apply (run_elapse_fires waits Hwaits 10000); [reflexivity | lia].
    + simpl. list_norm. repeat split.
Qed.

(** ** Sizes *)

Lemma len_nonneg {A : Type} (l : list A) : 0 <= len l.
Proof. unfold len. lia. Qed.

Lemma len_take {A : Type} (n : Z) (l : list A) :
  0 <= n <= len l -> len (take n l) = n.
Proof.
  unfold len, take. intros Hn. rewrite firstn_length_le; lia.
Qed.

Lemma take_drop {A : Type} (n : Z) (l : list A) : take n l ++ drop n l = l.
Proof. apply firstn_skipn. Qed.

Lemma take_all {A : Type} (n : Z) (l : list A) : len l <= n -> take n l = l.
Proof. unfold len, take. intros Hn. apply firstn_all2. lia. Qed.

Lemma uint32_small (z : Z) : 0 <= z < 2 ^ 32 -> uint32 z = z.
Proof. intros Hz. unfold uint32. now rewrite Z.mod_small. Qed.

Lemma int32_small (z : Z) : 0 <= z < 2 ^ 31 -> int32 z = z.
Proof.
  intros Hz. unfold int32.
  rewrite Z.mod_small; [lia|].
  change (2 ^ 32) with 4294967296. change (2 ^ 31) with 2147483648 in *. lia.
Qed.

(** ** The relay loop *)

Lemma uart_data_pushed (n : Z) (w : world) :
  serial_read_enabled w = true ->
  0 <= n <= SLAVE_UART_BUF_SIZE ->
  n <= len (uart_rx w) ->
  n <= USB_SEND_RINGBUFFER_SIZE - len (usb_sendbuf w) ->
  uart_event_switch (mk_event UART_DATA n) w = Done tt (data_pushed n w).
Proof.
  intros Hen Hn Hrx Hfree. unfold SLAVE_UART_BUF_SIZE in Hn.
  open_world w. subst re.
  unfold uart_event_switch, data_pushed, data_calls, uart_read_bytes,
    xRingbufferSend; run_monad.
  destruct (Z.leb_spec n (len rx)); [|lia]. simpl.
  rewrite len_take, int32_small, uint32_small by lia.
  destruct (Z.leb_spec n (USB_SEND_RINGBUFFER_SIZE - len sb)); [|lia].
  flatten_world. list_norm.
  rewrite (take_all n (take n rx)) by (rewrite len_take; lia).
  reflexivity.
Qed.

Lemma uart_data_dropped (n : Z) (w : world) :
  serial_read_enabled w = true ->
  0 <= n <= SLAVE_UART_BUF_SIZE ->
  n <= len (uart_rx w) ->
  USB_SEND_RINGBUFFER_SIZE - len (usb_sendbuf w) < n ->
  uart_event_switch (mk_event UART_DATA n) w = Done tt (data_dropped n w).
Proof.
  intros Hen Hn Hrx Hfree. unfold SLAVE_UART_BUF_SIZE in Hn.
  open_world w. subst re.
  unfold uart_event_switch, data_dropped, data_calls, push_timeout_calls,
    uart_read_bytes, xRingbufferSend, xRingbufferGetCurFreeSize, vTaskDelay;
    run_monad.
  destruct (Z.leb_spec n (len rx)); [|lia]. simpl.
  rewrite len_take, int32_small, uint32_small by lia.
  destruct (Z.leb_spec n (USB_SEND_RINGBUFFER_SIZE - len sb)); [lia|].
  flatten_world. list_norm. reflexivity.
Qed.

Lemma uart_data_disabled (n : Z) (w : world) :
  serial_read_enabled w = false ->
  uart_event_switch (mk_event UART_DATA n) w = Done tt w.
Proof.
  intros Hen. unfold uart_event_switch. simpl. now rewrite Hen.
Qed.

Lemma uart_event_task_turn (event : uart_event_t) (q : list uart_event_t)
  (w w' : world) :
  uart_queue w = event :: q ->
  uart_event_switch event (event_taken q w) = Done tt w' ->
  uart_event_task w = Done tt (turn_ended w').
Proof.
  intros Hq Hsw.
  unfold uart_event_task, xQueueReceive, taskYIELD, vTaskDelay; run_monad.
  rewrite Hq. fold (event_taken q w). rewrite Hsw.
  destruct w' as [fi re q' rx tx room sb tm gb gr crx ctx cs].
  unfold turn_ended. flatten_world. list_norm. reflexivity.
Qed.

(** C5.  A turn of the relay loop on a DATA event of [n] bytes, with reading
    enabled, [n] bytes held by the UART driver and [n] no more than the
    task's buffer: the task asks the UART for exactly [n] bytes and gets the
    [n] oldest; it pushes them with a wait of 10 milliseconds; when the ring
    buffer has room they are appended to it; when it has not, nothing is
    appended, the free size is logged as a warning and the task waits 10
    milliseconds; in both cases the turn ends with a yield and a wait of 10
    milliseconds, and the next turn starts at the event queue. *)
Theorem data_event_turn (n : Z) (q : list uart_event_t) (w : world) :
  serial_read_enabled w = true ->
  uart_queue w = mk_event UART_DATA n :: q ->
  0 <= n <= SLAVE_UART_BUF_SIZE ->
  n <= len (uart_rx w) ->
  let free := USB_SEND_RINGBUFFER_SIZE - len (usb_sendbuf w) in
  exists w',
    uart_event_task w = Done tt w' /\
    uart_queue w' = q /\
    uart_rx w' = drop n (uart_rx w) /\
    len (take n (uart_rx w)) = n /\
    (if n <=? free then
       usb_sendbuf w' = usb_sendbuf w ++ take n (uart_rx w) /\
       calls w' = calls w ++
         [c_xQueueReceive portMAX_DELAY;
          c_uart_read_bytes n portMAX_DELAY;
          c_log LOGD "UART -> CDC ringbuffer (%d bytes)" [n];
          c_xRingbufferSend n (pdMS_TO_TICKS 10);
          c_taskYIELD; c_vTaskDelay (pdMS_TO_TICKS 10)]
     else
       usb_sendbuf w' = usb_sendbuf w /\
       calls w' = calls w ++
         [c_xQueueReceive portMAX_DELAY;
          c_uart_read_bytes n portMAX_DELAY;
          c_log LOGD "UART -> CDC ringbuffer (%d bytes)" [n];
          c_xRingbufferSend n (pdMS_TO_TICKS 10);
          c_xRingbufferGetCurFreeSize;
          c_log LOGW "Cannot write to ringbuffer (free %d of %d)!"
            [free; USB_SEND_RINGBUFFER_SIZE];
          c_vTaskDelay (pdMS_TO_TICKS 10);
          c_taskYIELD; c_vTaskDelay (pdMS_TO_TICKS 10)]) /\
    serial_read_enabled w' = true /\
    serial_init_finished w' = serial_init_finished w /\
    uart_tx w' = uart_tx w /\
    same_signals w w'.
Proof.
  intros Hen Hq Hn Hrx free.
  destruct (Z.leb_spec n free) as [Hfree|Hfree].
  - exists (turn_ended (data_pushed n (event_taken q w))).
    split.
    { apply (uart_event_task_turn _ q w _ Hq).
      apply uart_data_pushed; assumption. }
    simpl. rewrite len_take by lia. list_norm.
    repeat split; auto.
  - exists (turn_ended (data_dropped n (event_taken q w))).
    split.
    { apply (uart_event_task_turn _ q w _ Hq).
      apply uart_data_dropped; assumption. }
    simpl. rewrite len_take by lia. list_norm.
    repeat split; auto.
Qed.

Lemma uart_overflow_switch (t : uart_event_type_t) (size : Z) (w : world) :
  t = UART_FIFO_OVF \/ t = UART_BUFFER_FULL ->
  uart_event_switch (mk_event t size) w = Done tt (resynchronized t w).
Proof.
  intros [Ht|Ht]; subst t; open_world w;
    unfold uart_event_switch, resynchronized, uart_flush_input, xQueueReset;
    run_monad; flatten_world; list_norm; reflexivity.
Qed.

Lemma uart_isr_posts (event : uart_event_t) (bytes : list uint8_t) (w : world) :
  len (uart_queue w) < 20 ->
  uart_isr event bytes w
  = Done tt (set_uart_queue (uart_queue w ++ [event])
               (set_uart_rx (uart_rx w ++ bytes) w)).
Proof.
  intros Hq. unfold uart_isr.
  destruct (Z.ltb_spec (len (uart_queue w)) 20); [reflexivity | lia].
Qed.

(** C6.  A turn of the relay loop on a FIFO_OVERFLOW or BUFFER_FULL event
    returns, whatever the state: it logs a warning, flushes the UART input
    and resets the event queue, so that the bytes held by the driver and
    every event still queued are gone; the ring buffer and the two flags are
    as before.  When the driver then posts a DATA event with its bytes, the
    next turn relays exactly these bytes into the ring buffer (reading
    enabled, the bytes fitting the task's buffer and the ring buffer). *)
Theorem overflow_resynchronizes
  (t : uart_event_type_t) (size : Z) (q : list uart_event_t) (w : world) :
  t = UART_FIFO_OVF \/ t = UART_BUFFER_FULL ->
  uart_queue w = mk_event t size :: q ->
  exists w',
    uart_event_task w = Done tt w' /\
    uart_rx w' = [] /\
    uart_queue w' = [] /\
    usb_sendbuf w' = usb_sendbuf w /\
    serial_read_enabled w' = serial_read_enabled w /\
    serial_init_finished w' = serial_init_finished w /\
    calls w' = calls w ++
      [c_xQueueReceive portMAX_DELAY;
       c_log LOGW (overflow_warning t) [];
       c_uart_flush_input; c_xQueueReset;
       c_taskYIELD; c_vTaskDelay (pdMS_TO_TICKS 10)] /\
    forall bytes : list uint8_t,
      serial_read_enabled w = true ->
      len bytes <= SLAVE_UART_BUF_SIZE ->
      len bytes <= USB_SEND_RINGBUFFER_SIZE - len (usb_sendbuf w) ->
      exists w'',
        run [op_uart_isr (mk_event UART_DATA (len bytes)) bytes;
             op_uart_event_task] w' = Done tt w'' /\
        usb_sendbuf w'' = usb_sendbuf w ++ bytes /\
        uart_rx w'' = [] /\
        uart_queue w'' = [].
Proof.
  intros Ht Hq.
  exists (turn_ended (resynchronized t (event_taken q w))).
  split.
  { apply (uart_event_task_turn _ q w _ Hq).
    apply uart_overflow_switch; assumption. }
  simpl. list_norm. repeat split; auto.
  intros bytes Hen Hfit Hroom.
  set (w1 := turn_ended (resynchronized t (event_taken q w))).
  set (w2 := set_uart_queue [mk_event UART_DATA (len bytes)]
               (set_uart_rx bytes w1)).
  assert (Hisr : uart_isr (mk_event UART_DATA (len bytes)) bytes w1
                 = Done tt w2).
  { rewrite uart_isr_posts by (simpl; unfold len; simpl; lia). reflexivity. }
  pose proof (len_nonneg bytes) as Hlen.
  exists (turn_ended (data_pushed (len bytes) (event_taken [] w2))).
  split.
  - simpl. unfold bind at 1. rewrite Hisr.
    change (uart_queue w2) with [mk_event UART_DATA (len bytes)].
    cbv iota. unfold bind, ret.
    rewrite (uart_event_task_turn (mk_event UART_DATA (len bytes)) [] w2
               (data_pushed (len bytes) (event_taken [] w2)));
      [reflexivity | reflexivity |].
    apply uart_data_pushed; simpl; auto; lia.
  - simpl. rewrite take_all by lia.
    unfold drop. rewrite skipn_all2 by (unfold len; lia).
    repeat split.
Qed.

(** ** The sender loop *)

Lemma usb_send_chunk_done (fuel : nat) (int_buf : list uint8_t)
  (n transferred to_send try_cnt : Z) (w : world) :
  n <= uint32 transferred ->
  usb_send_chunk (S fuel) int_buf n transferred to_send try_cnt w = Done tt w.
Proof.
  intros Hn. simpl.
  destruct (Z.ltb_spec (uint32 transferred) n); [lia | reflexivity].
Qed.

Lemma usb_send_chunk_retry (fuel : nat) (int_buf : list uint8_t)
  (n transferred to_send try_cnt : Z) (w : world) :
  uint32 transferred < n ->
  host_write_available (cdc_tx w) < uint32 to_send ->
  uint32 (try_cnt + 1) < 10 ->
  usb_send_chunk (S fuel) int_buf n transferred to_send try_cnt w
  = usb_send_chunk fuel int_buf n transferred to_send (uint32 (try_cnt + 1))
      (retried w).
Proof.
  intros Hn Hroom Htry. simpl.
  destruct (Z.ltb_spec (uint32 transferred) n); [|lia].
  open_world w.
  unfold tud_cdc_write_available, tud_cdc_write_flush, ets_delay_us, retried;
    run_monad.
  destruct (Z.ltb_spec (host_write_available ctx) (uint32 to_send)); [|lia].
  destruct (Z.ltb_spec (uint32 (try_cnt + 1)) 10); [|lia].
  simpl. f_equal. flatten_world. list_norm. reflexivity.
Qed.

Lemma usb_send_chunk_write (fuel : nat) (int_buf : list uint8_t)
  (n transferred to_send try_cnt : Z) (w : world) :
  uint32 transferred < n ->
  uint32 to_send <= host_write_available (cdc_tx w) \/
  10 <= uint32 (try_cnt + 1) ->
  usb_send_chunk (S fuel) int_buf n transferred to_send try_cnt w
  = usb_send_chunk fuel int_buf n
      (int32 (transferred + accepted int_buf transferred to_send w))
      (int32 (to_send - accepted int_buf transferred to_send w)) 0
      (written int_buf transferred to_send w).
Proof.
  intros Hn Hgo. simpl.
  destruct (Z.ltb_spec (uint32 transferred) n); [|lia].
  open_world w.
  unfold tud_cdc_write_available, tud_cdc_write, written, accepted, offered;
    run_monad.
  assert (Hcond :
    (host_write_available ctx <? uint32 to_send)
    && ((if host_write_available ctx <? uint32 to_send
         then uint32 (try_cnt + 1) else try_cnt) <? 10) = false).
  { destruct (Z.ltb_spec (host_write_available ctx) (uint32 to_send));
      [|reflexivity].
    simpl. destruct Hgo as [Hgo|Hgo]; [lia|].
    destruct (Z.ltb_spec (uint32 (try_cnt + 1)) 10); [lia | reflexivity]. }
  rewrite Hcond. simpl. f_equal. flatten_world. list_norm. reflexivity.
Qed.

Lemma host_only_refl (w : world) : host_only w w.
Proof.
  repeat split. exists []. now rewrite app_nil_r.
Qed.

Lemma host_only_trans (a b c : world) :
  host_only a b -> host_only b c -> host_only a c.
Proof.
  intros (H1 & H2 & H3 & H4 & H5 & H6 & H7 & H8 & (H9 & H10 & H11) & t1 & Hc1 & Ht1)
         (K1 & K2 & K3 & K4 & K5 & K6 & K7 & K8 & (K9 & K10 & K11) & t2 & Hc2 & Ht2).
  unfold host_only, same_signals.
  repeat split; try congruence.
  exists (t1 ++ t2). rewrite Hc2, Hc1, <- app_assoc.
  split; [reflexivity|]. now rewrite forallb_app, Ht1, Ht2.
Qed.

Lemma host_only_retried (w : world) : host_only w (retried w).
Proof.
  repeat split. eexists. split; [reflexivity | reflexivity].
Qed.

Lemma host_only_written (int_buf : list uint8_t) (transferred to_send : Z)
  (w : world) : host_only w (written int_buf transferred to_send w).
Proof.
  repeat split. eexists. split; [reflexivity | reflexivity].
Qed.

Lemma usb_send_chunk_host_only (fuel : nat) (int_buf : list uint8_t) (n : Z) :
  forall (transferred to_send try_cnt : Z) (w : world),
    host_only w
      (world_of (usb_send_chunk fuel int_buf n transferred to_send try_cnt w)).
Proof.
  induction fuel as [|fuel IH]; intros transferred to_send try_cnt w.
  - apply host_only_refl.
  - destruct (Z.le_gt_cases n (uint32 transferred)) as [Hdone|Hmore].
    { rewrite usb_send_chunk_done by assumption. apply host_only_refl. }
    destruct (Z.le_gt_cases (uint32 to_send)
                (host_write_available (cdc_tx w))) as [Hroom|Hshort].
    { rewrite usb_send_chunk_write by (auto; lia).
      eapply host_only_trans; [apply host_only_written | apply IH]. }
    destruct (Z.le_gt_cases 10 (uint32 (try_cnt + 1))) as [Hout|Htry].
    { rewrite usb_send_chunk_write by (auto; lia).
      eapply host_only_trans; [apply host_only_written | apply IH]. }
    rewrite usb_send_chunk_retry by lia.
    eapply host_only_trans; [apply host_only_retried | apply IH].
Qed.

Lemma take_nonempty {A : Type} (n : Z) (l : list A) :
  0 < n -> l <> [] -> take n l <> [].
Proof.
  intros Hn Hl. unfold take.
  destruct l as [|a l]; [congruence|].
  destruct (Z.to_nat n) eqn:Hz; [lia | discriminate].
Qed.

Lemma usb_sender_task_item (fuel : nat) (w : world) :
  take CONFIG_USB_CDC_TX_BUFSIZE (usb_sendbuf w) <> [] ->
  usb_sender_task fuel w
  = send_item fuel (take CONFIG_USB_CDC_TX_BUFSIZE (usb_sendbuf w))
      (item_returned (take CONFIG_USB_CDC_TX_BUFSIZE (usb_sendbuf w)) w).
Proof.
  intros Hitem. open_world w.
  unfold usb_sender_task, xRingbufferReceiveUpTo, vRingbufferReturnItem,
    send_item, item_returned; run_monad.
  destruct (take CONFIG_USB_CDC_TX_BUFSIZE sb) as [|b item] eqn:Hsb;
    [congruence|].
  unfold bind. flatten_world. list_norm. reflexivity.
Qed.

Lemma send_item_host_only (fuel : nat) (item : list uint8_t) (w : world) :
  host_only w (world_of (send_item fuel item w)).
Proof.
  unfold send_item, bind.
  pose proof (usb_send_chunk_host_only fuel item (len item) 0
                (int32 (len item)) 0 w) as Hloop.
  destruct (usb_send_chunk fuel item (len item) 0 (int32 (len item)) 0 w)
    as [[] w1|why w1]; simpl in *.
  - eapply host_only_trans; [exact Hloop|].
    unfold tud_cdc_write_flush; run_monad.
    repeat split. eexists. split; reflexivity.
  - exact Hloop.
Qed.

(** C9.  In a turn of the sender loop that finds bytes in the ring buffer,
    the item is copied and given back before the port towards the host is
    used: at that point the item's bytes have left the ring buffer and the
    port is untouched.  Everything the turn does afterwards, whether the
    loop over the chunk ends or not and whatever the host does, is calls of
    that port and logging: the ring buffer stays without the item's bytes,
    and nothing is sent to it. *)
Theorem sender_returns_item_first (fuel : nat) (w : world) :
  0 < CONFIG_USB_CDC_TX_BUFSIZE ->
  usb_sendbuf w <> [] ->
  let item := take CONFIG_USB_CDC_TX_BUFSIZE (usb_sendbuf w) in
  let w' := world_of (usb_sender_task fuel w) in
  exists w1 tr,
    usb_sender_task fuel w = send_item fuel item w1 /\
    calls w1 = calls w ++
      [c_xRingbufferReceiveUpTo (pdMS_TO_TICKS 100) CONFIG_USB_CDC_TX_BUFSIZE;
       c_vRingbufferReturnItem (len item)] /\
    usb_sendbuf w1 = drop (len item) (usb_sendbuf w) /\
    cdc_tx w1 = cdc_tx w /\
    calls w' = calls w1 ++ tr /\
    forallb host_side_call tr = true /\
    usb_sendbuf w' = drop (len item) (usb_sendbuf w) /\
    item ++ usb_sendbuf w' = usb_sendbuf w.
Proof.
  intros Hmax Hbuf item w'.
  pose proof (take_nonempty _ _ Hmax Hbuf) as Hitem.
  pose proof (usb_sender_task_item fuel w Hitem) as Hturn.
  fold item in Hturn.
  pose proof (send_item_host_only fuel item (item_returned item w)) as Hhost.
  rewrite <- Hturn in Hhost. fold w' in Hhost.
  destruct Hhost as (_ & _ & _ & _ & _ & _ & Hsb & _ & _ & tr & Hc & Htr).
  exists (item_returned item w), tr.
  assert (Hrest : item ++ drop (len item) (usb_sendbuf w) = usb_sendbuf w).
  { rewrite <- (take_drop CONFIG_USB_CDC_TX_BUFSIZE (usb_sendbuf w)) at 2.
    fold item. f_equal.
    unfold drop, len. rewrite Nat2Z.id.
    unfold item, take. rewrite length_firstn.
    destruct (Nat.le_ge_cases (Z.to_nat CONFIG_USB_CDC_TX_BUFSIZE)
                (List.length (usb_sendbuf w))) as [Hle|Hge].
    - now rewrite Nat.min_l.
    - rewrite Nat.min_r by assumption.
      now rewrite !skipn_all2. }
  split; [exact Hturn|].
  split; [reflexivity|].
  split; [reflexivity|].
  split; [reflexivity|].
  split; [exact Hc|].
  split; [exact Htr|].
  split; [exact Hsb|].
  rewrite Hsb. exact Hrest.
Qed.

(** A host that has stopped reading: there is never room for [n] bytes and
    no write takes any byte.  [stalled] holds of the port from then on. *)
Section StalledHost.

Variable stalled : H -> Prop.
Variable n : Z.
Hypothesis n_range : 0 < n < 2 ^ 31.
Hypothesis no_room : forall h, stalled h -> host_write_available h < n.
Hypothesis no_write : forall h bs,
  stalled h -> fst (host_write bs h) = 0 /\ stalled (snd (host_write bs h)).
Hypothesis flush_stalled : forall h, stalled h -> stalled (host_write_flush h).
Hypothesis wait_stalled : forall h us, stalled h -> stalled (host_wait us h).

Lemma usb_send_chunk_stalled (fuel : nat) (int_buf : list uint8_t) :
  forall (try_cnt : Z) (w : world),
    stalled (cdc_tx w) ->
    exists w',
      usb_send_chunk fuel int_buf n 0 n try_cnt w = Halt OutOfFuel w'.
Proof.
  assert (H31 : 2 ^ 31 = 2147483648) by reflexivity.
  assert (H32 : 2 ^ 32 = 4294967296) by reflexivity.
  induction fuel as [|fuel IH]; intros try_cnt w Hst.
  - exists w. reflexivity.
  - assert (Hn : uint32 n = n) by (apply uint32_small; lia).
    assert (H0n : uint32 0 < n) by (rewrite uint32_small; lia).
    destruct (Z.le_gt_cases 10 (uint32 (try_cnt + 1))) as [Hout|Htry].
    + rewrite usb_send_chunk_write by auto.
      unfold accepted.
      destruct (no_write (cdc_tx w) (offered int_buf 0 n) Hst) as [Hz Hst'].
      rewrite Hz.
      replace (int32 (0 + int32 0)) with 0 by reflexivity.
      replace (int32 (n - int32 0)) with n
        by (change (int32 0) with 0; rewrite Z.sub_0_r, int32_small; lia).
      apply IH. exact Hst'.
    + rewrite usb_send_chunk_retry
        by (auto; rewrite Hn; apply no_room; assumption).
      apply IH. simpl. apply wait_stalled, flush_stalled, Hst.
Qed.

End StalledHost.

(** ** The callbacks before initialization, and the forwarder *)

Lemma rx_cb_before_init (itf : Z) (w : world) :
  serial_init_finished w = false -> tud_cdc_rx_cb itf w = Done tt (warned w).
Proof.
  intros Hinit. unfold tud_cdc_rx_cb. rewrite Hinit. reflexivity.
Qed.

Lemma line_state_cb_before_init (itf : Z) (dtr rts : bool) (w : world) :
  serial_init_finished w = false ->
  tud_cdc_line_state_cb itf dtr rts w = Done tt (warned w).
Proof.
  intros Hinit. unfold tud_cdc_line_state_cb. rewrite Hinit. reflexivity.
Qed.

Lemma len_take_le {A : Type} (n : Z) (l : list A) :
  len (take n l) <= Z.max 0 n.
Proof.
  unfold len, take. rewrite length_firstn. lia.
Qed.

Lemma rx_cb_initialized (itf : Z) (w : world) :
  CONFIG_USB_CDC_RX_BUFSIZE < 2 ^ 31 ->
  serial_init_finished w = true ->
  tud_cdc_rx_cb itf w = Done tt (forwarded itf w).
Proof.
  intros Hsize Hinit.
  assert (H31 : 2 ^ 31 = 2147483648) by reflexivity.
  assert (H32 : 2 ^ 32 = 4294967296) by reflexivity.
  open_world w. subst fi.
  unfold tud_cdc_rx_cb, forwarded, tud_cdc_n_read, uart_write_bytes; run_monad.
  pose proof (len_take_le CONFIG_USB_CDC_RX_BUFSIZE crx) as Hle.
  pose proof (len_nonneg (take CONFIG_USB_CDC_RX_BUFSIZE crx)) as Hge.
  rewrite (uint32_small (len (take CONFIG_USB_CDC_RX_BUFSIZE crx))) by lia.
  destruct (take CONFIG_USB_CDC_RX_BUFSIZE crx) as [|b slice] eqn:Hslice.
  - change (0 <? len []) with false. cbv iota. run_monad.
    unfold forward_calls. flatten_world. list_norm. reflexivity.
  - set (l := len (b :: slice)) in *.
    assert (Hpos : 0 < l) by (unfold l, len; simpl; lia).
    destruct (Z.ltb_spec 0 l); [|lia]. simpl.
    set (n := Z.max 0 (Z.min l room)).
    rewrite (int32_small n) by lia.
    rewrite (uint32_small n) by lia.
    unfold forward_calls. fold l.
    destruct (Z.eqb_spec n l); run_monad; flatten_world; list_norm;
      reflexivity.
Qed.

(** C8.  Before the initialization is finished, the receive callback and
    the line-state callback log one warning and return; nothing else in the
    world changes.  After it, the receive callback reads a slice of at most
    CONFIG_USB_CDC_RX_BUFSIZE bytes; when the slice is empty it logs a
    warning and that is all; otherwise it writes the slice to the UART in one
    call, and when the UART took fewer bytes than the slice has it logs the
    number taken: the bytes not taken are in no buffer afterwards and no
    second write is made. *)
Theorem callbacks_guarded (itf : Z) (dtr rts : bool) (w : world) :
  CONFIG_USB_CDC_RX_BUFSIZE < 2 ^ 31 ->
  let slice := take CONFIG_USB_CDC_RX_BUFSIZE (cdc_rx w) in
  let n := Z.max 0 (Z.min (len slice) (uart_tx_room w)) in
  if serial_init_finished w then
    exists w',
      tud_cdc_rx_cb itf w = Done tt w' /\
      cdc_rx w' = drop CONFIG_USB_CDC_RX_BUFSIZE (cdc_rx w) /\
      uart_rx w' = uart_rx w /\
      uart_queue w' = uart_queue w /\
      usb_sendbuf w' = usb_sendbuf w /\
      same_signals w w' /\
      match slice with
      | [] =>
          uart_tx w' = uart_tx w /\
          uart_tx_room w' = uart_tx_room w /\
          calls w' = calls w ++
            [c_tud_cdc_n_read itf CONFIG_USB_CDC_RX_BUFSIZE;
             c_log LOGW "tud_cdc_rx_cb receive error" []]
      | _ :: _ =>
          uart_tx w' = uart_tx w ++ take n slice /\
          uart_tx_room w' = uart_tx_room w - n /\
          calls w' = calls w ++
            [c_tud_cdc_n_read itf CONFIG_USB_CDC_RX_BUFSIZE;
             c_log LOGD "CDC -> UART (%d bytes)" [len slice];
             c_uart_write_bytes (len slice)] ++
            (if n =? len slice then []
             else [c_log LOGW "uart_write_bytes transferred %d bytes only!"
                     [n]])
      end
  else
    tud_cdc_rx_cb itf w
    = Done tt (set_calls (calls w ++ [c_log LOGW not_initialized_fmt []]) w) /\
    tud_cdc_line_state_cb itf dtr rts w
    = Done tt (set_calls (calls w ++ [c_log LOGW not_initialized_fmt []]) w).
Proof.
  intros Hsize slice n.
  destruct (serial_init_finished w) eqn:Hinit.
  - exists (forwarded itf w).
    split; [apply rx_cb_initialized; assumption|].
    unfold forwarded. fold slice. fold n.
    destruct slice as [|b slice']; simpl; repeat split.
  - split.
    + apply rx_cb_before_init; assumption.
    + apply line_state_cb_before_init; assumption.
Qed.

(** ** The read-enable flag *)

Lemma uart_event_switch_disabled (event : uart_event_t) (w : world) :
  serial_read_enabled w = false ->
  exists w',
    uart_event_switch event w = Done tt w' /\
    usb_sendbuf w' = usb_sendbuf w /\
    serial_read_enabled w' = false.
Proof.
  intros Hen. destruct event as [t size].
  unfold uart_event_switch. simpl.
  destruct t; try rewrite Hen; unfold_calls;
    (eexists; split; [reflexivity | simpl; auto]).
Qed.

Lemma uart_event_task_disabled (w : world) :
  serial_read_enabled w = false ->
  exists w',
    exec op_uart_event_task w = Done tt w' /\
    usb_sendbuf w' = usb_sendbuf w /\
    serial_read_enabled w' = false.
Proof.
  intros Hen. simpl.
  destruct (uart_queue w) as [|event q] eqn:Hq.
  - exists w. auto.
  - destruct (uart_event_switch_disabled event (event_taken q w) Hen)
      as (w' & Hsw & Hsb & Hfl).
    exists (turn_ended w'). split.
    + apply (uart_event_task_turn event q w w' Hq Hsw).
    + simpl. auto.
Qed.

Lemma exec_bystander (o : op) (w : world) :
  serial_read_enabled w = false ->
  bystander o = true ->
  exists w',
    exec o w = Done tt w' /\
    usb_sendbuf w' = usb_sendbuf w /\
    serial_read_enabled w' = false.
Proof.
  intros Hen Hby. destruct o as [event bytes| |fuel|itf bytes|itf dtr rts|us|b|baud driver];
    try discriminate.
  - simpl. unfold uart_isr.
    destruct (len (uart_queue w) <? 20); eexists; (split; [reflexivity|]);
      simpl; auto.
  - apply uart_event_task_disabled; assumption.
  - simpl. unfold usb_receive, tud_cdc_rx_cb; unfold_calls.
    crunch; (eexists; split; [reflexivity | simpl; auto]).
  - simpl. destruct (serial_init_finished w) eqn:Hinit.
    + rewrite line_state_cb_initialized by assumption.
      eexists; split; [reflexivity|].
      unfold line_state_result. destruct (dtr && rts); simpl; auto.
    + rewrite line_state_cb_before_init by assumption.
      eexists; split; [reflexivity | simpl; auto].
  - simpl. unfold esp_timer_elapse.
    destruct (state_change_timer w) as [due|]; [|eauto].
    destruct (due <=? us).
    + rewrite state_change_timer_cb_run.
      eexists; split; [reflexivity | simpl; auto].
    + eexists; split; [reflexivity | simpl; auto].
  - destruct b; [discriminate|].
    simpl. unfold serial_set. eexists; split; [reflexivity | simpl; auto].
  - simpl. unfold serial_set_baudrate; unfold_calls.
    eexists; split; [reflexivity | simpl; auto].
Qed.

Lemma run_bystanders (os : list op) :
  forallb bystander os = true ->
  forall w, serial_read_enabled w = false ->
  exists w',
    run os w = Done tt w' /\
    usb_sendbuf w' = usb_sendbuf w /\
    serial_read_enabled w' = false.
Proof.
  induction os as [|o os IH]; simpl; intros Hby w Hen.
  - exists w. auto.
  - apply andb_prop in Hby. destruct Hby as [Ho Hos].
    destruct (exec_bystander o w Hen Ho) as (w1 & Hexec & Hsb1 & Hen1).
    destruct (IH Hos w1 Hen1) as (w2 & Hrun & Hsb2 & Hen2).
    exists w2. unfold bind. rewrite Hexec.
    repeat split; congruence.
Qed.

Lemma uart_event_task_keeps_flag (w : world) :
  serial_read_enabled (world_of (uart_event_task w)) = serial_read_enabled w.
Proof.
  unfold uart_event_task; unfold_calls.
  destruct (uart_queue w) as [|[t size] q]; [reflexivity|].
  unfold uart_event_switch. simpl.
  destruct t; unfold_calls; try reflexivity.
  crunch; congruence.
Qed.

Lemma usb_sender_task_keeps_flag (fuel : nat) (w : world) :
  serial_read_enabled (world_of (usb_sender_task fuel w))
  = serial_read_enabled w.
Proof.
  destruct (take CONFIG_USB_CDC_TX_BUFSIZE (usb_sendbuf w)) eqn:Hitem.
  - unfold usb_sender_task; unfold_calls. rewrite Hitem. reflexivity.
  - rewrite usb_sender_task_item by congruence.
    destruct (send_item_host_only fuel
                (take CONFIG_USB_CDC_TX_BUFSIZE (usb_sendbuf w))
                (item_returned (take CONFIG_USB_CDC_TX_BUFSIZE (usb_sendbuf w)) w))
      as (_ & Hfl & _).
    rewrite Hfl. reflexivity.
Qed.

Lemma exec_keeps_flag (o : op) (w : world) :
  match o with
  | op_serial_set enable =>
      serial_read_enabled (world_of (exec o w)) = enable
  | _ =>
      serial_read_enabled (world_of (exec o w)) = serial_read_enabled w
  end.
Proof.
  destruct o as [event bytes| |fuel|itf bytes|itf dtr rts|us|b|baud driver];
    simpl.
  - unfold uart_isr. destruct (len (uart_queue w) <? 20); reflexivity.
  - destruct (uart_queue w) eqn:Hq; [reflexivity|].
    apply uart_event_task_keeps_flag.
  - apply usb_sender_task_keeps_flag.
  - unfold usb_receive, tud_cdc_rx_cb; unfold_calls. crunch; congruence.
  - destruct (serial_init_finished w) eqn:Hinit.
    + rewrite line_state_cb_initialized by assumption.
      unfold line_state_result. destruct (dtr && rts); reflexivity.
    + rewrite line_state_cb_before_init by assumption. reflexivity.
  - unfold esp_timer_elapse.
    destruct (state_change_timer w) as [due|]; [|reflexivity].
    destruct (due <=? us); [|reflexivity].
    rewrite state_change_timer_cb_run. reflexivity.
  - reflexivity.
  - reflexivity.
Qed.

Lemma start_serial_task_success (w : world) :
  start_serial_task ESP_LOADER_SUCCESS true w = Done tt (started w).
Proof.
  open_world w.
  unfold start_serial_task, started, loader_port_esp32_init,
    init_state_change_timer, esp_timer_create, xRingbufferCreate, xTaskCreate,
    vTaskDelete, gpio_set_level; run_monad.
  flatten_world. list_norm. reflexivity.
Qed.

(** C7.  While the flag is false, whatever happens on the UART side and in
    the callbacks - events posted, turns of the relay loop, bytes from the
    host, line-state changes, time passing, further calls that disable -
    returns and leaves the ring buffer exactly as it was: no DATA event adds
    to it and nothing queued before is lost; a DATA event makes the relay
    loop do nothing at all.  This lasts until [serial_set(true)], after
    which the flag is true again.  [serial_set] itself leaves the ring
    buffer alone, and among the things that happen while the bridge runs it
    is the only one that changes the flag; the initialization sets it once,
    to true. *)
Theorem read_disabled_discards
  (os : list op) (n : Z) (enable : bool) (w : world) :
  serial_read_enabled w = false ->
  forallb bystander os = true ->
  (exists w',
     run os w = Done tt w' /\
     usb_sendbuf w' = usb_sendbuf w /\
     serial_read_enabled w' = false) /\
  uart_event_switch (mk_event UART_DATA n) w = Done tt w /\
  (exists w',
     run (os ++ [op_serial_set true]) w = Done tt w' /\
     usb_sendbuf w' = usb_sendbuf w /\
     serial_read_enabled w' = true) /\
  (forall w0 : world,
     serial_set enable w0 = Done tt (set_serial_read_enabled enable w0) /\
     usb_sendbuf (set_serial_read_enabled enable w0) = usb_sendbuf w0) /\
  (forall (o : op) (w0 : world),
     match o with
     | op_serial_set b => serial_read_enabled (world_of (exec o w0)) = b
     | _ =>
         serial_read_enabled (world_of (exec o w0)) = serial_read_enabled w0
     end) /\
  (forall w0 : world,
     exists w',
       start_serial_task ESP_LOADER_SUCCESS true w0 = Done tt w' /\
       serial_read_enabled w' = true).
Proof.
  intros Hen Hby.
  destruct (run_bystanders os Hby w Hen) as (w' & Hrun & Hsb & Hfl).
  split; [exists w'; auto|].
  split; [apply uart_data_disabled; assumption|].
  split.
  { exists (set_serial_read_enabled true w').
    rewrite run_app. unfold bind at 1. rewrite Hrun.
    simpl. auto. }
  split; [intros w0; split; reflexivity|].
  split; [intros o w0; apply exec_keeps_flag|].
  intros w0. exists (started w0).
  split; [apply start_serial_task_success | reflexivity].
Qed.

(** C10.  [serial_set] assigns the flag and does nothing else, in every
    world: it neither reads [serial_init_finished] nor logs.  So in the
    window of [start_serial_task] where the two tasks exist and
    [serial_init_finished] is still false, where the two callbacks only
    warn, a [serial_set(true)] makes the relay loop forward the next DATA
    event, which it would otherwise have ignored; and [start_serial_task]
    ends by setting the flag itself. *)
Theorem serial_set_unguarded (enable : bool) (b : uint8_t) (w : world) :
  serial_set enable w = Done tt (set_serial_read_enabled enable w) /\
  serial_read_enabled (set_serial_read_enabled enable w) = enable /\
  serial_init_finished (set_serial_read_enabled enable w)
  = serial_init_finished w /\
  calls (set_serial_read_enabled enable w) = calls w /\
  (let early := tasks_just_created b (cdc_tx w) in
   serial_init_finished early = false /\
   usb_sendbuf (world_of (run [op_serial_set true; op_uart_event_task] early))
   = [b] /\
   serial_init_finished
     (world_of (run [op_serial_set true; op_uart_event_task] early)) = false /\
   usb_sendbuf (world_of (run [op_uart_event_task] early)) = [] /\
   tud_cdc_rx_cb 0 early = Done tt (warned early) /\
   tud_cdc_line_state_cb 0 true true early = Done tt (warned early)) /\
  serial_read_enabled (world_of (start_serial_task ESP_LOADER_SUCCESS true w))
  = true.
Proof.
  repeat split.
Qed.

(** ** Waits in the data path *)

Lemma uart_data_blocked (n : Z) (w : world) :
  serial_read_enabled w = true ->
  len (uart_rx w) < n ->
  uart_event_switch (mk_event UART_DATA n) w
  = Halt Blocked
      (set_calls (calls w ++ [c_uart_read_bytes n portMAX_DELAY]) w).
Proof.
  intros Hen Hrx. unfold uart_event_switch. simpl. rewrite Hen.
  unfold uart_read_bytes; run_monad.
  destruct (Z.leb_spec n (len (uart_rx w))); [lia | reflexivity].
Qed.

Lemma uart_event_task_halts (event : uart_event_t) (q : list uart_event_t)
  (why : halt) (w w' : world) :
  uart_queue w = event :: q ->
  uart_event_switch event (event_taken q w) = Halt why w' ->
  uart_event_task w = Halt why w'.
Proof.
  intros Hq Hsw.
  unfold uart_event_task, xQueueReceive; run_monad.
  rewrite Hq. fold (event_taken q w). rewrite Hsw. reflexivity.
Qed.

Lemma usb_sender_task_idle (fuel : nat) (w : world) :
  take CONFIG_USB_CDC_TX_BUFSIZE (usb_sendbuf w) = [] ->
  usb_sender_task fuel w
  = Done tt
      (set_calls
         (calls w ++
            [c_xRingbufferReceiveUpTo (pdMS_TO_TICKS 100)
               CONFIG_USB_CDC_TX_BUFSIZE;
             c_log LOGD "usb_sender_task: nothing to send" [];
             c_vTaskDelay (pdMS_TO_TICKS 100)]) w).
Proof.
  intros Hitem. open_world w.
  unfold usb_sender_task; unfold_calls. rewrite Hitem.
  flatten_world. list_norm. reflexivity.
Qed.

Lemma host_side_never_waits (tr : list api_call) :
  forallb host_side_call tr = true -> filter can_wait tr = [].
Proof.
  induction tr as [|c tr IH]; simpl; intros Htr.
  - reflexivity.
  - apply andb_prop in Htr. destruct Htr as [Hc Htr].
    destruct c; simpl in *; try discriminate; auto.
Qed.

Lemma usb_sender_task_waits (fuel : nat) (w : world) :
  exists tr,
    calls (world_of (usb_sender_task fuel w)) = calls w ++ tr /\
    filter can_wait tr
    = [c_xRingbufferReceiveUpTo (pdMS_TO_TICKS 100) CONFIG_USB_CDC_TX_BUFSIZE].
Proof.
  destruct (take CONFIG_USB_CDC_TX_BUFSIZE (usb_sendbuf w)) as [|b item] eqn:Hi.
  - rewrite usb_sender_task_idle by assumption.
    eexists. split; reflexivity.
  - rewrite usb_sender_task_item by congruence.
    rewrite Hi.
    destruct (send_item_host_only fuel (b :: item)
                (item_returned (b :: item) w))
      as (_ & _ & _ & _ & _ & _ & _ & _ & _ & tr & Hc & Htr).
    exists ([c_xRingbufferReceiveUpTo (pdMS_TO_TICKS 100)
               CONFIG_USB_CDC_TX_BUFSIZE;
             c_vRingbufferReturnItem (len (b :: item))] ++ tr).
    split.
    + rewrite Hc. simpl. now rewrite <- app_assoc.
    + simpl. now rewrite host_side_never_waits.
Qed.

(** C4, as the code has it.  In the data path from the UART to the host,
    the push into the ring buffer is made with a wait of 10 milliseconds and
    the pop with a wait of 100 milliseconds, and these are the only waits of
    the sender's turn.  The relay loop's wait for an event and its read of
    the [n] bytes of a DATA event are made with [portMAX_DELAY], without
    bound: the read returns at once when the UART driver holds [n] bytes,
    and when it holds fewer the turn stays blocked in the read, the ring
    buffer untouched. *)
Theorem data_path_waits
  (n : Z) (q : list uart_event_t) (fuel : nat) (w : world) :
  serial_read_enabled w = true ->
  uart_queue w = mk_event UART_DATA n :: q ->
  0 <= n <= SLAVE_UART_BUF_SIZE ->
  (exists tr,
     calls (world_of (uart_event_task w)) = calls w ++ tr /\
     if n <=? len (uart_rx w) then
       (exists w', uart_event_task w = Done tt w') /\
       filter can_wait tr
       = [c_xQueueReceive portMAX_DELAY;
          c_uart_read_bytes n portMAX_DELAY;
          c_xRingbufferSend n (pdMS_TO_TICKS 10)]
     else
       (exists w',
          uart_event_task w = Halt Blocked w' /\
          usb_sendbuf w' = usb_sendbuf w) /\
       tr = [c_xQueueReceive portMAX_DELAY;
             c_uart_read_bytes n portMAX_DELAY]) /\
  (exists tr,
     calls (world_of (usb_sender_task fuel w)) = calls w ++ tr /\
     filter can_wait tr
     = [c_xRingbufferReceiveUpTo (pdMS_TO_TICKS 100)
          CONFIG_USB_CDC_TX_BUFSIZE]) /\
  bounded_wait (pdMS_TO_TICKS 10) = true /\
  bounded_wait (pdMS_TO_TICKS 100) = true /\
  bounded_wait portMAX_DELAY = false.
Proof.
  intros Hen Hq Hn.
  split; [|split; [apply usb_sender_task_waits | repeat split]].
  destruct (Z.leb_spec n (len (uart_rx w))) as [Hrx|Hrx].
  - destruct (Z.le_gt_cases n (USB_SEND_RINGBUFFER_SIZE - len (usb_sendbuf w)))
      as [Hroom|Hfull].
    + rewrite (uart_event_task_turn _ q w
                 (data_pushed n (event_taken q w)) Hq)
        by (apply uart_data_pushed; assumption).
      eexists. split; [simpl; list_norm; reflexivity|].
      split; [eauto | reflexivity].
    + rewrite (uart_event_task_turn _ q w
                 (data_dropped n (event_taken q w)) Hq)
        by (apply uart_data_dropped; assumption).
      eexists. split; [simpl; list_norm; reflexivity|].
      split; [eauto | reflexivity].
  - rewrite (uart_event_task_halts _ q Blocked w _ Hq
               (uart_data_blocked n (event_taken q w) Hen Hrx)).
    eexists. split; [simpl; list_norm; reflexivity|].
    split; [|reflexivity].
    eexists. split; [reflexivity | reflexivity].
Qed.

(** ** No abort, idempotence, line noise *)





(** X2.  On an initialized bridge, a line state other than (1,1) that is
    reported a second time, after any time, changes nothing: the handler
    writes the two pins again with the levels they have, and the timer
    stays stopped. *)
Theorem repeated_line_state_is_idle
  (itf gap : Z) (dtr rts : bool) (w : world) :
  serial_init_finished w = true ->
  dtr && rts = false ->
  exists w1 w2 tr,
    tud_cdc_line_state_cb itf dtr rts w = Done tt w1 /\
    run [op_elapse gap; op_line_state itf dtr rts] w1 = Done tt w2 /\
    same_signals w1 w2 /\
    same_relay w1 w2 /\
    state_change_timer w2 = None /\
    calls w2 = calls w1 ++ tr /\
    gpio_levels (gpio_boot w1) (gpio_rst w1) tr
    = [(gpio_boot w1, gpio_rst w1); (gpio_boot w1, gpio_rst w1)].
Proof.
  intros Hinit Hnot.
  set (w1 := line_state_result dtr rts w).
  assert (Hinit1 : serial_init_finished w1 = true).
  { unfold w1, line_state_result. rewrite Hnot. exact Hinit. }
  assert (Htimer : state_change_timer w1 = None).
  { unfold w1, line_state_result. rewrite Hnot. reflexivity. }
  exists w1, (line_state_result dtr rts w1).
  exists [c_esp_timer_stop;
          c_log LOGI line_state_fmt
            [Z_of_bool dtr; Z_of_bool rts;
             Z_of_bool (negb (dtr && negb rts));
             Z_of_bool (negb (negb dtr && rts))];
          c_gpio_set_level GPIO_BOOT (negb (dtr && negb rts));
          c_gpio_set_level GPIO_RST (negb (negb dtr && rts))].
  split; [apply line_state_cb_initialized; assumption|].
  split.
  { simpl. unfold bind. rewrite elapse_idle by assumption.
    rewrite line_state_cb_initialized by assumption. reflexivity. }
  unfold w1, line_state_result. rewrite Hnot.
  destruct dtr, rts; try discriminate; simpl; repeat split.
Qed.

(** X3.  A turn of the relay loop on a break, a parity error, a frame error
    or an event of unknown type logs one warning and does nothing else: the
    bytes held by the driver, the ring buffer, the events still queued and
    the flags are as before. *)
Theorem line_noise_only_logged
  (t : uart_event_type_t) (size : Z) (q : list uart_event_t) (w : world) :
  line_noise t = true ->
  uart_queue w = mk_event t size :: q ->
  exists w',
    uart_event_task w = Done tt w' /\
    calls w' = calls w ++
      [c_xQueueReceive portMAX_DELAY; noise_warning t;
       c_taskYIELD; c_vTaskDelay (pdMS_TO_TICKS 10)] /\
    uart_queue w' = q /\
    uart_rx w' = uart_rx w /\
    usb_sendbuf w' = usb_sendbuf w /\
    serial_read_enabled w' = serial_read_enabled w /\
    serial_init_finished w' = serial_init_finished w /\
    uart_tx w' = uart_tx w /\
    cdc_rx w' = cdc_rx w /\
    cdc_tx w' = cdc_tx w /\
    same_signals w w'.
Proof.
  intros Hnoise Hq.
  assert (Hsw : uart_event_switch (mk_event t size) (event_taken q w)
                = Done tt (set_calls
                             (calls (event_taken q w) ++ [noise_warning t])
                             (event_taken q w))).
  { destruct t; try discriminate; reflexivity. }
  eexists. split.
  - apply (uart_event_task_turn _ q w _ Hq Hsw).
  - simpl. list_norm. repeat split.
Qed.

(** ** The sender loop and the host *)

Lemma len_drop {A : Type} (n : Z) (l : list A) :
  0 <= n <= len l -> len (drop n l) = len l - n.
Proof.
  unfold len, drop. intros Hn. rewrite length_skipn. lia.
Qed.

Lemma firstn_plus {A : Type} (a b : nat) (l : list A) :
  firstn a l ++ firstn b (skipn a l) = firstn (a + b) l.
Proof.
  revert l. induction a as [|a IH]; intros l.
  - reflexivity.
  - destruct l as [|x l].
    + now rewrite !firstn_nil.
    + cbn [firstn skipn Nat.add]. rewrite <- IH. reflexivity.
Qed.

Lemma take_plus {A : Type} (a b : Z) (l : list A) :
  0 <= a -> 0 <= b -> take a l ++ take b (drop a l) = take (a + b) l.
Proof.
  intros Ha Hb. unfold take, drop.
  rewrite firstn_plus. f_equal. lia.
Qed.

Lemma take_rest {A : Type} (a : Z) (l : list A) :
  0 <= a <= len l -> take (len l - a) (drop a l) = drop a l.
Proof.
  intros Ha. apply take_all. rewrite len_drop by assumption. lia.
Qed.

Lemma usb_send_chunk_budget (fuel : nat) (int_buf : list uint8_t) (n : Z) :
  forall (transferred to_send try_cnt : Z) (w : world),
    0 <= try_cnt <= 9 ->
    exists tr,
      calls (world_of
               (usb_send_chunk fuel int_buf n transferred to_send try_cnt w))
      = calls w ++ tr /\
      retries_within_budget try_cnt tr = true.
Proof.
  assert (H32 : 2 ^ 32 = 4294967296) by reflexivity.
  induction fuel as [|fuel IH]; intros transferred to_send try_cnt w Htry.
  - exists []. split; [now rewrite app_nil_r | reflexivity].
  - destruct (Z.le_gt_cases n (uint32 transferred)) as [Hdone|Hmore].
    { rewrite usb_send_chunk_done by assumption.
      exists []. split; [now rewrite app_nil_r | reflexivity]. }
    assert (Hwrite :
      exists tr,
        calls (world_of
                 (usb_send_chunk fuel int_buf n
                    (int32 (transferred + accepted int_buf transferred to_send w))
                    (int32 (to_send - accepted int_buf transferred to_send w))
                    0 (written int_buf transferred to_send w)))
        = calls w ++ tr /\
        retries_within_budget try_cnt tr = true).
    { destruct (IH (int32 (transferred + accepted int_buf transferred to_send w))
                  (int32 (to_send - accepted int_buf transferred to_send w))
                  0 (written int_buf transferred to_send w))
        as (tr & Hc & Hb); [lia|].
      eexists. split.
      - rewrite Hc. simpl. rewrite <- app_assoc. reflexivity.
      - simpl. exact Hb. }
    destruct (Z.le_gt_cases (uint32 to_send)
                (host_write_available (cdc_tx w))) as [Hroom|Hshort].
    { rewrite usb_send_chunk_write by (auto; lia). exact Hwrite. }
    destruct (Z.le_gt_cases 10 (uint32 (try_cnt + 1))) as [Hout|Hleft].
    { rewrite usb_send_chunk_write by (auto; lia). exact Hwrite. }
    rewrite usb_send_chunk_retry by lia.
    assert (Hnext : uint32 (try_cnt + 1) = try_cnt + 1)
      by (apply uint32_small; lia).
    rewrite Hnext in *.
    destruct (IH transferred to_send (try_cnt + 1) (retried w))
      as (tr & Hc & Hb); [lia|].
    eexists. split.
    + rewrite Hc. simpl. rewrite <- app_assoc. reflexivity.
    + simpl. rewrite Hb.
      destruct (Z.leb_spec (try_cnt + 1) 9); [reflexivity | lia].
Qed.

(** X4.  In every turn of the sender loop, for every host and whether the
    turn ends or not, a write to the host is never preceded by more than 9
    flush-and-wait retries: the budget bounds the retries before each
    write. *)
Theorem sender_retries_within_budget (fuel : nat) (w : world) :
  exists tr,
    calls (world_of (usb_sender_task fuel w)) = calls w ++ tr /\
    retries_within_budget 0 tr = true.
Proof.
  destruct (take CONFIG_USB_CDC_TX_BUFSIZE (usb_sendbuf w)) as [|b item] eqn:Hi.
  - rewrite usb_sender_task_idle by assumption.
    eexists. split; reflexivity.
  - rewrite usb_sender_task_item by congruence. rewrite Hi.
    unfold send_item, bind.
    destruct (usb_send_chunk_budget fuel (b :: item) (len (b :: item)) 0
                (int32 (len (b :: item))) 0 (item_returned (b :: item) w))
      as (tr & Hc & Hb); [lia|].
    destruct (usb_send_chunk fuel (b :: item) (len (b :: item)) 0
                (int32 (len (b :: item))) 0 (item_returned (b :: item) w))
      as [[] w1|why w1]; simpl in Hc.
    + exists ([c_xRingbufferReceiveUpTo (pdMS_TO_TICKS 100)
                 CONFIG_USB_CDC_TX_BUFSIZE;
               c_vRingbufferReturnItem (len (b :: item))] ++ tr
              ++ [c_tud_cdc_write_flush]).
      split.
      * unfold tud_cdc_write_flush; run_monad. rewrite Hc.
        list_norm. reflexivity.
      * simpl. clear Hc. revert Hb. generalize 0 at 1 2. induction tr as [|c tr IHtr].
        -- reflexivity.
        -- intros z Hb. destruct c; simpl in *; auto.
           apply andb_prop in Hb. destruct Hb as [Hz Hb].
           rewrite Hz. simpl. apply IHtr. exact Hb.
    + exists ([c_xRingbufferReceiveUpTo (pdMS_TO_TICKS 100)
                 CONFIG_USB_CDC_TX_BUFSIZE;
               c_vRingbufferReturnItem (len (b :: item))] ++ tr).
      split.
      * simpl. rewrite Hc. list_norm. reflexivity.
      * simpl. exact Hb.
Qed.

(** A host whose port can be observed: [got h] are the bytes the port has
    taken so far.  A write takes a prefix of what it is offered, and
    nothing else adds or removes a byte. *)
Section ObservedHost.

Variable got : H -> list uint8_t.

Hypothesis write_takes_prefix : forall bs h,
  0 <= fst (host_write bs h) <= len bs /\
  got (snd (host_write bs h)) = got h ++ take (fst (host_write bs h)) bs.

Hypothesis flush_keeps : forall h, got (host_write_flush h) = got h.

Hypothesis wait_keeps : forall us h, got (host_wait us h) = got h.

Lemma offered_rest (item : list uint8_t) (transferred : Z) :
  len item < 2 ^ 31 ->
  0 <= transferred <= len item ->
  offered item transferred (len item - transferred) = drop transferred item.
Proof.
  intros Hn Ht. unfold offered.
  assert (H32 : 2 ^ 32 = 4294967296) by reflexivity.
  assert (H31 : 2 ^ 31 = 2147483648) by reflexivity.
  rewrite uint32_small by lia. apply take_rest. assumption.
Qed.



(** The host also takes at least one byte of every write that offers
    some. *)
Hypothesis write_progresses : forall bs h,
  bs <> [] -> 1 <= fst (host_write bs h).

Lemma drop_nonempty {A : Type} (a : Z) (l : list A) :
  0 <= a < len l -> drop a l <> [].
Proof.
  intros Ha Hnil.
  assert (Hlen : len (drop a l) = len l - a) by (apply len_drop; lia).
  rewrite Hnil in Hlen. unfold len in Hlen at 1. simpl in Hlen. lia.
Qed.

Lemma usb_send_chunk_ends (item g0 : list uint8_t) :
  len item < 2 ^ 31 ->
  forall (fuel : nat) (transferred try_cnt : Z) (w : world),
    0 <= transferred <= len item ->
    0 <= try_cnt <= 9 ->
    Z.max 0 (10 * (len item - transferred) - try_cnt) < Z.of_nat fuel ->
    got (cdc_tx w) = g0 ++ take transferred item ->
    exists w',
      usb_send_chunk fuel item (len item) transferred
        (len item - transferred) try_cnt w = Done tt w' /\
      got (cdc_tx w') = g0 ++ item /\
      host_only w w'.
Proof.
  intros Hn.
  assert (H32 : 2 ^ 32 = 4294967296) by reflexivity.
  assert (H31 : 2 ^ 31 = 2147483648) by reflexivity.
  induction fuel as [|fuel IH]; intros transferred try_cnt w Ht Htry Hfuel Hgot.
  - lia.
  - assert (Hu : uint32 transferred = transferred)
      by (apply uint32_small; lia).
    destruct (Z.le_gt_cases (len item) (uint32 transferred)) as [Hdone|Hmore].
    { rewrite usb_send_chunk_done by assumption.
      exists w. split; [reflexivity|]. split; [|apply host_only_refl].
      rewrite Hgot. f_equal. apply take_all. lia. }
    assert (Hwrite :
      10 <= uint32 (try_cnt + 1) \/
      uint32 (len item - transferred) <= host_write_available (cdc_tx w) ->
      exists w',
        usb_send_chunk fuel item (len item)
          (int32 (transferred
                  + accepted item transferred (len item - transferred) w))
          (int32 (len item - transferred
                  - accepted item transferred (len item - transferred) w))
          0 (written item transferred (len item - transferred) w)
        = Done tt w' /\
        got (cdc_tx w') = g0 ++ item /\
        host_only w w').
    { intros Hwhy. unfold accepted, written.
      rewrite offered_rest by lia.
      destruct (write_takes_prefix (drop transferred item) (cdc_tx w))
        as [Hk Hgot'].
      pose proof (write_progresses (drop transferred item) (cdc_tx w)
                    (drop_nonempty transferred item ltac:(lia))) as Hk1.
      rewrite len_drop in Hk by lia.
      set (k0 := fst (host_write (drop transferred item) (cdc_tx w))) in *.
      rewrite (int32_small k0) by lia.
      rewrite (int32_small (transferred + k0)) by lia.
      rewrite (int32_small (len item - transferred - k0)) by lia.
      replace (len item - transferred - k0)
        with (len item - (transferred + k0)) by lia.
      match goal with
      | |- exists w', usb_send_chunk _ _ _ _ _ _ ?w1 = _ /\ _ =>
          destruct (IH (transferred + k0) 0 w1) as (w' & Hrun & Hgotw & Hhost);
            [lia | lia | lia | |]
      end.
      - simpl. rewrite Hgot', Hgot, <- app_assoc.
        rewrite take_plus by lia. reflexivity.
      - exists w'. split; [exact Hrun|]. split; [exact Hgotw|].
        eapply host_only_trans; [|exact Hhost].
        repeat split. eexists. split; reflexivity. }
    destruct (Z.le_gt_cases (uint32 (len item - transferred))
                (host_write_available (cdc_tx w))) as [Hroom|Hshort].
    { rewrite usb_send_chunk_write by (auto; lia). apply Hwrite. auto. }
    destruct (Z.le_gt_cases 10 (uint32 (try_cnt + 1))) as [Hout|Hleft].
    { rewrite usb_send_chunk_write by (auto; lia). apply Hwrite. auto. }
    rewrite usb_send_chunk_retry by lia.
    assert (Hnext : uint32 (try_cnt + 1) = try_cnt + 1)
      by (apply uint32_small; lia).
    rewrite Hnext in *.
    destruct (IH transferred (try_cnt + 1) (retried w))
      as (w' & Hrun & Hgotw & Hhost); [lia | lia | lia | |].
    + simpl. rewrite wait_keeps, flush_keeps. exact Hgot.
    + exists w'. split; [exact Hrun|]. split; [exact Hgotw|].
      eapply host_only_trans; [apply host_only_retried | exact Hhost].
Qed.

Lemma take_then_rest {A : Type} (n : Z) (l : list A) :
  take n l ++ drop (len (take n l)) l = l.
Proof.
  rewrite <- (take_drop n l) at 4. f_equal.
  unfold drop, len, take. rewrite Nat2Z.id, length_firstn.
  destruct (Nat.le_ge_cases (Z.to_nat n) (List.length l)) as [Hle|Hge].
  - now rewrite Nat.min_l.
  - rewrite Nat.min_r by assumption. now rewrite !skipn_all2.
Qed.

Lemma sender_turn_returns (fuel : nat) (w : world) :
  CONFIG_USB_CDC_TX_BUFSIZE < 2 ^ 31 ->
  let item := take CONFIG_USB_CDC_TX_BUFSIZE (usb_sendbuf w) in
  10 * len item < Z.of_nat fuel ->
  exists w',
    usb_sender_task fuel w = Done tt w' /\
    got (cdc_tx w') = got (cdc_tx w) ++ item /\
    usb_sendbuf w' = drop (len item) (usb_sendbuf w) /\
    item ++ usb_sendbuf w' = usb_sendbuf w.
Proof.
  intros Hsize item Hfuel.
  pose proof (len_take_le CONFIG_USB_CDC_TX_BUFSIZE (usb_sendbuf w)) as Hle.
  pose proof (len_nonneg item) as Hge.
  pose proof (take_then_rest CONFIG_USB_CDC_TX_BUFSIZE (usb_sendbuf w)) as Hrest.
  fold item in Hle, Hrest.
  destruct item as [|b rest] eqn:Hitem.
  - unfold item in Hitem. rewrite usb_sender_task_idle by assumption.
    eexists. split; [reflexivity|]. simpl.
    split; [now rewrite app_nil_r|]. split; reflexivity.
  - assert (Hne : take CONFIG_USB_CDC_TX_BUFSIZE (usb_sendbuf w) <> [])
      by (unfold item in Hitem; congruence).
    rewrite (usb_sender_task_item fuel w Hne).
    unfold item in Hitem. rewrite Hitem.
    set (it := b :: rest) in *.
    assert (H31 : 2 ^ 31 = 2147483648) by reflexivity.
    assert (Hn : len it < 2 ^ 31) by lia.
    destruct (usb_send_chunk_ends it (got (cdc_tx w)) Hn fuel 0 0
                (item_returned it w))
      as (w1 & Hrun & Hgot & Hhost);
      [lia | lia | lia | simpl; now rewrite app_nil_r |].
    rewrite Z.sub_0_r in Hrun.
    unfold send_item, bind.
    rewrite (int32_small (len it)) by lia.
    rewrite Hrun.
    destruct Hhost as (_ & _ & _ & _ & _ & _ & Hsb & _).
    unfold tud_cdc_write_flush; run_monad.
    eexists. split; [reflexivity|]. simpl.
    rewrite flush_keeps, Hsb. simpl.
    split; [exact Hgot|]. split; [reflexivity | exact Hrest].
Qed.

(** X6.  Towards a host that takes a prefix of every write and at least one
    byte of every write that offers some, a turn of the sender loop returns
    within ten turns of its inner loop per byte of the item; the host has
    then got the whole item, in order, and the ring buffer has lost exactly
    the item. *)
Theorem sender_turn_ends (fuel : nat) (w : world) :
  CONFIG_USB_CDC_TX_BUFSIZE < 2 ^ 31 ->
  let item := take CONFIG_USB_CDC_TX_BUFSIZE (usb_sendbuf w) in
  10 * len item < Z.of_nat fuel ->
  exists w',
    usb_sender_task fuel w = Done tt w' /\
    got (cdc_tx w') = got (cdc_tx w) ++ item /\
    usb_sendbuf w' = drop (len item) (usb_sendbuf w) /\
    item ++ usb_sendbuf w' = usb_sendbuf w.
Proof.
  exact (sender_turn_returns fuel w).
Qed.



End ObservedHost.

(** ** Bursts from the target, bytes from the host *)

Lemma len_app {A : Type} (l l' : list A) : len (l ++ l') = len l + len l'.
Proof. unfold len. rewrite length_app. lia. Qed.

Lemma take_app_exact {A : Type} (a b : list A) : take (len a) (a ++ b) = a.
Proof.
  unfold take, len. rewrite Nat2Z.id.
  rewrite firstn_app, Nat.sub_diag, firstn_all. simpl. apply app_nil_r.
Qed.

Lemma drop_app_exact {A : Type} (a b : list A) : drop (len a) (a ++ b) = b.
Proof.
  unfold drop, len. rewrite Nat2Z.id.
  rewrite skipn_app, Nat.sub_diag, skipn_all. reflexivity.
Qed.

Lemma run_cons (o : op) (os : list op) (w w1 : world) :
  exec o w = Done tt w1 -> run (o :: os) w = run os w1.
Proof.
  intros Hexec. simpl. unfold bind. now rewrite Hexec.
Qed.

Lemma uart_posts_run (chunks : list (list uint8_t)) :
  forall w,
    len (uart_queue w) + len chunks <= 20 ->
    exists w',
      run (uart_posts chunks) w = Done tt w' /\
      uart_queue w' = uart_queue w ++ map data_event chunks /\
      uart_rx w' = uart_rx w ++ List.concat chunks /\
      usb_sendbuf w' = usb_sendbuf w /\
      serial_read_enabled w' = serial_read_enabled w /\
      cdc_tx w' = cdc_tx w.
Proof.
  induction chunks as [|bytes chunks IH]; intros w Hq.
  - exists w. rewrite !app_nil_r. repeat split.
  - assert (Hl : len (bytes :: chunks) = len chunks + 1)
      by (unfold len; simpl; lia).
    pose proof (len_nonneg chunks) as Hc.
    destruct (IH (set_uart_queue (uart_queue w ++ [data_event bytes])
                    (set_uart_rx (uart_rx w ++ bytes) w)))
      as (w' & Hrun & Hq' & Hrx' & Hsb' & Hen' & Htx').
    { simpl. rewrite len_app.
      change (len [data_event bytes]) with 1. lia. }
    exists w'. split.
    + simpl. unfold bind.
      rewrite uart_isr_posts by lia. exact Hrun.
    + simpl in *. rewrite Hq', Hrx', <- !app_assoc. repeat split; assumption.
Qed.

Lemma relay_turns_run (chunks : list (list uint8_t)) (rest : list uint8_t) :
  Forall (fun bytes => len bytes <= SLAVE_UART_BUF_SIZE) chunks ->
  forall w,
    serial_read_enabled w = true ->
    uart_queue w = map data_event chunks ->
    uart_rx w = List.concat chunks ++ rest ->
    len (List.concat chunks) <= USB_SEND_RINGBUFFER_SIZE - len (usb_sendbuf w) ->
    exists w',
      run (relay_turns (List.length chunks)) w = Done tt w' /\
      usb_sendbuf w' = usb_sendbuf w ++ List.concat chunks /\
      uart_rx w' = rest /\
      uart_queue w' = [] /\
      serial_read_enabled w' = true /\
      cdc_tx w' = cdc_tx w.
Proof.
  induction 1 as [|bytes chunks Hfit _ IH]; intros w Hen Hq Hrx Hroom.
  - exists w. simpl. rewrite app_nil_r. repeat split; assumption.
  - simpl in Hq, Hrx, Hroom. rewrite len_app in Hroom.
    pose proof (len_nonneg bytes) as Hb.
    pose proof (len_nonneg (List.concat chunks)) as Hcc.
    set (w1 := turn_ended
                 (data_pushed (len bytes)
                    (event_taken (map data_event chunks) w))).
    assert (Hturn : uart_event_task w = Done tt w1).
    { apply (uart_event_task_turn (data_event bytes) _ w _ Hq).
      apply uart_data_pushed; simpl; try assumption; try lia.
      rewrite Hrx, <- app_assoc, len_app. pose proof (len_nonneg (List.concat chunks ++ rest)). lia. }
    destruct (IH w1) as (w' & Hrun & Hsb & Hrx' & Hq' & Hen' & Htx').
    + exact Hen.
    + reflexivity.
    + simpl. rewrite Hrx, <- app_assoc. apply drop_app_exact.
    + simpl. rewrite Hrx, <- app_assoc, take_app_exact, len_app. lia.
    + exists w'. split.
      * change (run (relay_turns (List.length (bytes :: chunks))) w)
          with (bind (exec op_uart_event_task)
                  (fun _ => run (relay_turns (List.length chunks))) w).
        unfold bind, exec. rewrite Hq, Hturn. exact Hrun.
      * split; [|auto].
        rewrite Hsb. simpl.
        rewrite Hrx, <- (app_assoc bytes), take_app_exact, <- app_assoc.
        reflexivity.
Qed.

(** X8.  A burst: the UART driver receives up to 20 chunks and posts a DATA
    event for each before the relay loop runs.  With reading enabled, each
    chunk within the task's buffer and the ring buffer having room for all,
    as many turns of the relay loop as there are chunks move every byte
    into the ring buffer, in the order received; the driver and the event
    queue are empty afterwards. *)
Theorem burst_relayed_in_order (chunks : list (list uint8_t)) (w : world) :
  serial_read_enabled w = true ->
  uart_queue w = [] ->
  uart_rx w = [] ->
  len chunks <= 20 ->
  Forall (fun bytes => len bytes <= SLAVE_UART_BUF_SIZE) chunks ->
  len (List.concat chunks) <= USB_SEND_RINGBUFFER_SIZE - len (usb_sendbuf w) ->
  exists w',
    run (uart_posts chunks ++ relay_turns (List.length chunks)) w = Done tt w' /\
    usb_sendbuf w' = usb_sendbuf w ++ List.concat chunks /\
    uart_rx w' = [] /\
    uart_queue w' = [].
Proof.
  intros Hen Hq Hrx Hcount Hfit Hroom.
  destruct (uart_posts_run chunks w)
    as (w1 & Hrun1 & Hq1 & Hrx1 & Hsb1 & Hen1 & _).
  { rewrite Hq. change (len []) with 0. lia. }
  rewrite Hq in Hq1. rewrite Hrx in Hrx1. simpl in Hq1, Hrx1.
  destruct (relay_turns_run chunks [] Hfit w1)
    as (w2 & Hrun2 & Hsb2 & Hrx2 & Hq2 & _).
  - congruence.
  - exact Hq1.
  - rewrite app_nil_r. exact Hrx1.
  - rewrite Hsb1. exact Hroom.
  - exists w2. rewrite run_app. unfold bind. rewrite Hrun1.
    split; [exact Hrun2|]. rewrite Hsb2, Hsb1. auto.
Qed.

(** X9.  Bytes that arrive while reading is disabled are not dropped by the
    relay loop: it neither reads nor flushes them, so they stay with the
    UART driver.  After [serial_set(true)], the turn for the next DATA event
    of [n] bytes relays the [n] oldest bytes the driver holds, which start
    with the bytes that arrived while reading was disabled. *)
Theorem stale_bytes_relayed_first (stale fresh : list uint8_t) (w : world) :
  serial_read_enabled w = false ->
  uart_queue w = [] ->
  uart_rx w = [] ->
  len fresh <= SLAVE_UART_BUF_SIZE ->
  len fresh <= USB_SEND_RINGBUFFER_SIZE - len (usb_sendbuf w) ->
  exists w',
    run [op_uart_isr (data_event stale) stale;
         op_uart_event_task;
         op_serial_set true;
         op_uart_isr (data_event fresh) fresh;
         op_uart_event_task] w = Done tt w' /\
    usb_sendbuf w' = usb_sendbuf w ++ take (len fresh) (stale ++ fresh) /\
    uart_rx w' = drop (len fresh) (stale ++ fresh).
Proof.
  intros Hen Hq Hrx Hfit Hroom.
  pose proof (len_nonneg fresh) as Hf.
  pose proof (len_nonneg stale) as Hs.
  set (w1 := set_uart_queue [data_event stale] (set_uart_rx stale w)).
  assert (H1 : uart_isr (data_event stale) stale w = Done tt w1).
  { rewrite uart_isr_posts by (rewrite Hq; change (len []) with 0; lia).
    unfold w1. rewrite Hq, Hrx. reflexivity. }
  set (w2 := turn_ended (event_taken [] w1)).
  assert (H2 : uart_event_task w1 = Done tt w2).
  { apply (uart_event_task_turn (data_event stale) [] w1 _ eq_refl).
    apply uart_data_disabled. exact Hen. }
  set (w3 := set_serial_read_enabled true w2).
  set (w4 := set_uart_queue [data_event fresh]
               (set_uart_rx (stale ++ fresh) w3)).
  assert (H4 : uart_isr (data_event fresh) fresh w3 = Done tt w4).
  { rewrite uart_isr_posts by (simpl; change (len []) with 0; lia).
    reflexivity. }
  set (w5 := turn_ended (data_pushed (len fresh) (event_taken [] w4))).
  assert (H5 : uart_event_task w4 = Done tt w5).
  { apply (uart_event_task_turn (data_event fresh) [] w4 _ eq_refl).
    apply uart_data_pushed; simpl; try reflexivity; try lia.
    rewrite len_app. lia. }
  exists w5. split.
  - rewrite (run_cons (op_uart_isr (data_event stale) stale) _ w w1 H1).
    rewrite (run_cons op_uart_event_task _ w1 w2 H2).
    rewrite (run_cons (op_serial_set true) _ w2 w3 eq_refl).
    rewrite (run_cons (op_uart_isr (data_event fresh) fresh) _ w3 w4 H4).
    rewrite (run_cons op_uart_event_task _ w4 w5 H5).
    reflexivity.
  - simpl. split; reflexivity.
Qed.

Lemma usb_receive_forwards (itf : Z) (bytes : list uint8_t) (w : world) :
  CONFIG_USB_CDC_RX_BUFSIZE < 2 ^ 31 ->
  serial_init_finished w = true ->
  cdc_rx w = [] ->
  len bytes <= CONFIG_USB_CDC_RX_BUFSIZE ->
  len bytes <= uart_tx_room w ->
  exists w',
    usb_receive itf bytes w = Done tt w' /\
    uart_tx w' = uart_tx w ++ bytes /\
    cdc_rx w' = [] /\
    uart_tx_room w' = uart_tx_room w - len bytes /\
    serial_init_finished w' = true.
Proof.
  intros Hsize Hinit Hrx Hfit Hroom.
  pose proof (len_nonneg bytes) as Hb.
  unfold usb_receive, bind.
  rewrite rx_cb_initialized by assumption.
  eexists. split; [reflexivity|].
  unfold forwarded. simpl. rewrite Hrx. simpl.
  rewrite (take_all CONFIG_USB_CDC_RX_BUFSIZE bytes) by assumption.
  assert (Hdrop : drop CONFIG_USB_CDC_RX_BUFSIZE bytes = []).
  { unfold drop. apply skipn_all2. unfold len in Hfit. lia. }
  destruct bytes as [|b bytes]; simpl.
  - rewrite app_nil_r. change (len []) with 0. rewrite Z.sub_0_r.
    repeat split; assumption.
  - rewrite Hdrop.
    replace (Z.max 0 (Z.min (len (b :: bytes)) (uart_tx_room w)))
      with (len (b :: bytes)) by lia.
    rewrite take_all by lia.
    repeat split; assumption.
Qed.

(** X10.  From the host to the target: on an initialized bridge, chunks
    sent by the host, each within TinyUSB's receive buffer and all within
    the room the UART has, are written to the UART whole and in the order
    sent, one callback per chunk; nothing stays behind in TinyUSB. *)
Theorem host_bytes_forwarded_in_order
  (itf : Z) (chunks : list (list uint8_t)) (w : world) :
  CONFIG_USB_CDC_RX_BUFSIZE < 2 ^ 31 ->
  serial_init_finished w = true ->
  cdc_rx w = [] ->
  Forall (fun bytes => len bytes <= CONFIG_USB_CDC_RX_BUFSIZE) chunks ->
  len (List.concat chunks) <= uart_tx_room w ->
  exists w',
    run (host_sends itf chunks) w = Done tt w' /\
    uart_tx w' = uart_tx w ++ List.concat chunks /\
    cdc_rx w' = [].
Proof.
  intros Hsize Hinit Hrx Hfit. revert w Hinit Hrx.
  induction Hfit as [|bytes chunks Hb _ IH]; intros w Hinit Hrx Hroom.
  - exists w. simpl. rewrite app_nil_r. auto.
  - simpl in Hroom. rewrite len_app in Hroom.
    pose proof (len_nonneg (List.concat chunks)) as Hc.
    destruct (usb_receive_forwards itf bytes w Hsize Hinit Hrx Hb)
      as (w1 & Hrecv & Htx & Hrx1 & Hroom1 & Hinit1); [lia|].
    destruct (IH w1 Hinit1 Hrx1) as (w2 & Hrun & Htx2 & Hrx2); [lia|].
    exists w2. split.
    + exact (eq_trans (run_cons (op_usb_receive itf bytes) _ w w1 Hrecv) Hrun).
    + rewrite Htx2, Htx. simpl. rewrite <- app_assoc. auto.
Qed.

(** ** Start *)


(** ** From the target to the host *)

Section TargetToHost.

Variable got : H -> list uint8_t.

Hypothesis write_takes_prefix : forall bs h,
  0 <= fst (host_write bs h) <= len bs /\
  got (snd (host_write bs h)) = got h ++ take (fst (host_write bs h)) bs.

Hypothesis flush_keeps : forall h, got (host_write_flush h) = got h.

Hypothesis wait_keeps : forall us h, got (host_wait us h) = got h.

Hypothesis write_progresses : forall bs h,
  bs <> [] -> 1 <= fst (host_write bs h).


End TargetToHost.

End Properties.

#[export] Existing Instance bench_config.

(** ** The theorems at work on concrete worlds *)

(** The sender delivers what the ring buffer holds, in order, to a host
    that reads. *)
Example sender_delivers_in_order :
  let w := set_usb_sendbuf (bytes_of "download") running in
  exists w',
    run [op_usb_sender_task 100; op_usb_sender_task 100] w = Done tt w' /\
    usb_sendbuf w' = [] /\
    host_got (cdc_tx w') ++ tx_ff (cdc_tx w') = bytes_of "download".
Proof.
  eexists. split; [vm_compute; reflexivity | split; reflexivity].
Qed.

(** C3, on the code.  One byte is in the ring buffer and the host does not
    read: no room is ever reported and every write takes 0 bytes.  The turn
    of the sender loop does not end, whatever the number of turns granted to
    the [for] loop over the chunk: after 9 retries the write is attempted,
    takes nothing, the counter of tries starts again at 0, and so on.  After
    1000 turns of that loop, 100 writes and 900 retries have been made and
    the byte is still to be sent. *)
Theorem sender_spins_while_host_stalls :
  let w := set_usb_sendbuf (bytes_of "U") running_stalled in
  (forall fuel : nat,
     exists w', usb_sender_task fuel w = Halt OutOfFuel w') /\
  List.length (filter is_write (calls (world_of (usb_sender_task 1000 w))))
  = 100%nat /\
  List.length (filter is_retry (calls (world_of (usb_sender_task 1000 w))))
  = 900%nat.
Proof.
  intros w. split; [|split; vm_compute; reflexivity].
  intros fuel.
  assert (Hitem : take CONFIG_USB_CDC_TX_BUFSIZE (usb_sendbuf w) <> []) by (vm_compute; discriminate).
  rewrite (usb_sender_task_item fuel w Hitem).
  assert (Hloop : forall w0 : world (H:=stalled_host),
            exists w',
              usb_send_chunk fuel (take CONFIG_USB_CDC_TX_BUFSIZE (usb_sendbuf w)) 1 0 1 0 w0
              = Halt OutOfFuel w').
  { intros w0.
    apply (usb_send_chunk_stalled (H:=stalled_host) (fun _ => True) 1).
    - split; [reflexivity | reflexivity].
    - intros h _. reflexivity.
    - intros h bs _. split; [reflexivity | exact I].
    - intros h _. exact I.
    - intros h us _. exact I.
    - exact I. }
  destruct (Hloop (item_returned (take CONFIG_USB_CDC_TX_BUFSIZE (usb_sendbuf w)) w)) as [w' Hw'].
  exists w'. unfold send_item, bind.
  change (len (take CONFIG_USB_CDC_TX_BUFSIZE (usb_sendbuf w))) with 1.
  change (int32 1) with 1.
  rewrite Hw'. reflexivity.
Qed.

(** C4 as the specification has it fails on the code: with fewer bytes held
    by the driver than the event announces, the turn of the relay loop does
    not return, blocked in a read made with [portMAX_DELAY]; and with all
    the bytes there, the turn still contains waits that are neither a push
    nor a pop and have no bound. *)
Lemma read_waits_without_bound :
  ~ waits_bounded uart_event_task data_short /\
  ~ waits_bounded uart_event_task data_ready.
Proof.
  split.
  - intros [[w' Hdone] _]. vm_compute in Hdone. discriminate.
  - intros [_ Hwaits].
    destruct (Hwaits _ (c_uart_read_bytes 4 portMAX_DELAY) eq_refl)
      as [Hring _].
    + right. left. reflexivity.
    + reflexivity.
    + discriminate.
Qed.

Lemma esptool_sequence_debounced_witness :
  serial_init_finished running = true /\
  0 <= 250 /\
  Forall (fun g => 0 <= g < 10 * 1000) [3000; 9999] /\
  Forall (fun g => 0 <= g) [4000; 7000] /\
  10 * 1000 <= total [4000; 7000] /\
  (exists w1 w2 tr,
     tud_cdc_line_state_cb 0 false true running = Done tt w1 /\
     run (op_elapse 250 ::
        samples_1_1 0 [3000; 9999] ++ [op_line_state 0 true false]) w1
     = Done tt w2 /\
     calls w2 = calls w1 ++ tr /\
     gpio_levels (gpio_boot w1) (gpio_rst w1) tr
     = [(false, false); (false, true)]) /\
  (exists w3,
     run (op_line_state 0 true true :: map op_elapse [4000; 7000]) running
     = Done tt w3 /\
     gpio_boot w3 = true /\ gpio_rst w3 = true).
Proof.
  assert (Hgaps : Forall (fun g => 0 <= g < 10 * 1000) [3000; 9999])
    by (repeat constructor; lia).
  assert (Hwaits : Forall (fun g => 0 <= g) [4000; 7000])
    by (repeat constructor; lia).
  assert (Hsum : 10 * 1000 <= total [4000; 7000]) by (vm_compute; discriminate).
  assert (Hgap : 0 <= 250) by lia.
  destruct (esptool_sequence_debounced 0 250 [3000; 9999] [4000; 7000]
              running eq_refl Hgap Hgaps Hwaits Hsum)
    as [Hfirst (w3 & Hrun & _ & Hb & Hr & _)].
  repeat (split; [assumption || reflexivity|]).
  exists w3. auto.
Defined.

Lemma line_state_cb_table_witness :
  serial_init_finished running = true /\
  exists w',
    tud_cdc_line_state_cb 0 true true running = Done tt w' /\
    gpio_boot w' = gpio_boot running /\
    gpio_rst w' = gpio_rst running /\
    state_change_timer w' = Some 10000.
Proof.
  split; [reflexivity|].
  destruct (line_state_cb_table 0 true true running eq_refl)
    as (w' & Hcb & _ & _ & Hb & Hr & Ht & _).
  exists w'. auto.
Defined.

Lemma data_path_waits_witness :
  serial_read_enabled data_short = true /\
  uart_queue data_short = [mk_event UART_DATA 4] /\
  0 <= 4 <= SLAVE_UART_BUF_SIZE /\
  (exists w',
     uart_event_task data_short = Halt Blocked w' /\
     usb_sendbuf w' = usb_sendbuf data_short) /\
  exists tr,
    calls (world_of (usb_sender_task 10 data_short))
    = calls data_short ++ tr /\
    filter can_wait tr = [c_xRingbufferReceiveUpTo (pdMS_TO_TICKS 100) 64].
Proof.
  assert (Hn : 0 <= 4 <= SLAVE_UART_BUF_SIZE) by (vm_compute; intuition discriminate).
  destruct (data_path_waits 4 [] 10 data_short eq_refl eq_refl Hn)
    as ((tr & _ & Hrelay) & Hsender & _).
  repeat (split; [assumption || reflexivity|]).
  split; [|exact Hsender].
  exact (proj1 Hrelay).
Defined.

Lemma data_event_turn_witness :
  serial_read_enabled data_ready = true /\
  uart_queue data_ready = [mk_event UART_DATA 4] /\
  0 <= 4 <= SLAVE_UART_BUF_SIZE /\
  4 <= len (uart_rx data_ready) /\
  exists w',
    uart_event_task data_ready = Done tt w' /\
    uart_queue w' = [] /\
    uart_rx w' = [] /\
    usb_sendbuf w' = bytes_of "boot".
Proof.
  assert (Hn : 0 <= 4 <= SLAVE_UART_BUF_SIZE) by (vm_compute; intuition discriminate).
  assert (Hrx : 4 <= len (uart_rx data_ready)) by (vm_compute; discriminate).
  destruct (data_event_turn 4 [] data_ready eq_refl eq_refl Hn Hrx)
    as (w' & Hturn & Hq & Hr & _ & Hpush & _).
  repeat (split; [assumption || reflexivity|]).
  exists w'. repeat split; try assumption.
  exact (proj1 Hpush).
Defined.

Lemma overflow_resynchronizes_witness :
  (UART_FIFO_OVF = UART_FIFO_OVF \/ UART_FIFO_OVF = UART_BUFFER_FULL) /\
  uart_queue overflowed = [mk_event UART_FIFO_OVF 0; mk_event UART_DATA 4] /\
  exists w' w'',
    uart_event_task overflowed = Done tt w' /\
    uart_rx w' = [] /\
    uart_queue w' = [] /\
    usb_sendbuf w' = bytes_of "kept" /\
    run [op_uart_isr (mk_event UART_DATA 3) (bytes_of "new");
               op_uart_event_task] w' = Done tt w'' /\
    usb_sendbuf w'' = bytes_of "keptnew".
Proof.
  assert (Ht : UART_FIFO_OVF = UART_FIFO_OVF \/ UART_FIFO_OVF = UART_BUFFER_FULL)
    by (left; reflexivity).
  destruct (overflow_resynchronizes UART_FIFO_OVF 0 [mk_event UART_DATA 4]
              overflowed Ht eq_refl)
    as (w' & Hturn & Hrx & Hq & Hsb & _ & _ & _ & Hnext).
  assert (Hfit : len (bytes_of "new") <= SLAVE_UART_BUF_SIZE)
    by (vm_compute; discriminate).
  assert (Hroom : len (bytes_of "new")
                  <= USB_SEND_RINGBUFFER_SIZE - len (usb_sendbuf overflowed))
    by (vm_compute; discriminate).
  destruct (Hnext (bytes_of "new") eq_refl Hfit Hroom)
    as (w'' & Hrun & Hsb' & _).
  repeat (split; [assumption || reflexivity|]).
  exists w', w''. repeat split; assumption.
Defined.

Lemma read_disabled_discards_witness :
  serial_read_enabled disabled = false /\
  forallb bystander while_disabled = true /\
  (exists w',
     run while_disabled disabled = Done tt w' /\
     usb_sendbuf w' = bytes_of "queued" /\
     serial_read_enabled w' = false) /\
  (exists w',
     run (while_disabled ++ [op_serial_set true]) disabled = Done tt w' /\
     usb_sendbuf w' = bytes_of "queued" /\
     serial_read_enabled w' = true).
Proof.
  destruct (read_disabled_discards while_disabled 4 true disabled
              eq_refl eq_refl)
    as (Hrun & _ & Hagain & _).
  repeat (split; [assumption || reflexivity|]).
  exact Hagain.
Defined.

Lemma callbacks_guarded_witness :
  CONFIG_USB_CDC_RX_BUFSIZE < 2 ^ 31 /\
  exists w',
    tud_cdc_rx_cb 0 uart_short = Done tt w' /\
    cdc_rx w' = [] /\
    uart_tx w' = bytes_of "fla" /\
    calls w' =
      [c_tud_cdc_n_read 0 64;
       c_log LOGD "CDC -> UART (%d bytes)" [5];
       c_uart_write_bytes 5;
       c_log LOGW "uart_write_bytes transferred %d bytes only!" [3]].
Proof.
  assert (Hsize : CONFIG_USB_CDC_RX_BUFSIZE < 2 ^ 31) by reflexivity.
  pose proof (callbacks_guarded 0 true true uart_short Hsize) as Hcb.
  split; [assumption|].
  destruct Hcb as (w' & Hrun & Hrx & _ & _ & _ & _ & Htx & _ & Hcalls).
  exists w'. repeat split; assumption.
Defined.

Lemma sender_returns_item_first_witness :
  0 < CONFIG_USB_CDC_TX_BUFSIZE /\
  usb_sendbuf to_send <> [] /\
  exists w1 tr,
    usb_sender_task 100 to_send = send_item 100 (bytes_of "target") w1 /\
    usb_sendbuf w1 = [] /\
    cdc_tx w1 = cdc_tx to_send /\
    calls (world_of (usb_sender_task 100 to_send)) = calls w1 ++ tr /\
    forallb host_side_call tr = true /\
    usb_sendbuf (world_of (usb_sender_task 100 to_send)) = [].
Proof.
  assert (Hmax : 0 < CONFIG_USB_CDC_TX_BUFSIZE) by reflexivity.
  assert (Hbuf : usb_sendbuf to_send <> []) by (vm_compute; discriminate).
  destruct (sender_returns_item_first 100 to_send Hmax Hbuf)
    as (w1 & tr & Hturn & _ & Hsb & Htx & Hc & Htr & Hsb' & _).
  repeat (split; [assumption|]).
  exists w1, tr. repeat split; assumption.
Defined.
(** ** The further properties at work *)



Lemma trickle_port_takes_prefix (bs : list uint8_t) (h : trickle_host) :
  0 <= fst (host_write bs h) <= len bs /\
  trickled (snd (host_write bs h))
  = trickled h ++ take (fst (host_write bs h)) bs.
Proof.
  simpl. destruct bs as [|b bs].
  - split; [unfold len; simpl; lia | reflexivity].
  - split; [unfold len; simpl; lia | reflexivity].
Qed.

Lemma trickle_port_progresses (bs : list uint8_t) (h : trickle_host) :
  bs <> [] -> 1 <= fst (host_write bs h).
Proof.
  intros Hbs. destruct bs as [|b bs]; [congruence|].
  simpl. unfold len. simpl. lia.
Qed.

Lemma repeated_line_state_is_idle_witness :
  serial_init_finished running = true /\
  false && true = false /\
  exists w1 w2,
    tud_cdc_line_state_cb 0 false true running = Done tt w1 /\
    run [op_elapse 5; op_line_state 0 false true] w1 = Done tt w2 /\
    same_signals w1 w2 /\
    gpio_boot w2 = true /\ gpio_rst w2 = false.
Proof.
  destruct (repeated_line_state_is_idle 0 5 false true running eq_refl eq_refl)
    as (w1 & w2 & tr & Hcb & Hrun & Hsig & _).
  repeat (split; [reflexivity|]).
  exists w1, w2.
  assert (Hw1 : gpio_boot w1 = true /\ gpio_rst w1 = false).
  { vm_compute in Hcb. injection Hcb as <-. split; reflexivity. }
  destruct Hw1 as [Hb1 Hr1].
  split; [exact Hcb|]. split; [exact Hrun|]. split; [exact Hsig|].
  destruct Hsig as (_ & Hb & Hr).
  split; congruence.
Defined.

Lemma line_noise_only_logged_witness :
  line_noise UART_BREAK = true /\
  uart_queue line_broken = [mk_event UART_BREAK 0] /\
  exists w',
    uart_event_task line_broken = Done tt w' /\
    usb_sendbuf w' = bytes_of "kept" /\
    uart_queue w' = [] /\
    calls w' =
      [c_xQueueReceive portMAX_DELAY; c_log LOGW "UART RX break" [];
       c_taskYIELD; c_vTaskDelay (pdMS_TO_TICKS 10)].
Proof.
  destruct (line_noise_only_logged UART_BREAK 0 [] line_broken eq_refl eq_refl)
    as (w' & Hturn & Hc & Hq & _ & Hsb & _).
  repeat (split; [reflexivity|]).
  exists w'. repeat split; assumption.
Defined.


Lemma sender_turn_ends_witness :
  (forall bs h,
     0 <= fst (host_write bs h) <= len bs /\
     trickled (snd (host_write bs h))
     = trickled h ++ take (fst (host_write bs h)) bs) /\
  (forall bs (h : trickle_host), bs <> [] -> 1 <= fst (host_write bs h)) /\
  CONFIG_USB_CDC_TX_BUFSIZE < 2 ^ 31 /\
  10 * len (take CONFIG_USB_CDC_TX_BUFSIZE
              (usb_sendbuf (set_usb_sendbuf (bytes_of "target") running_trickle)))
  < Z.of_nat 61 /\
  exists w',
    usb_sender_task 61 (set_usb_sendbuf (bytes_of "target") running_trickle)
    = Done tt w' /\
    trickled (cdc_tx w') = bytes_of "target" /\
    usb_sendbuf w' = [].
Proof.
  assert (Hsize : CONFIG_USB_CDC_TX_BUFSIZE < 2 ^ 31) by reflexivity.
  assert (Hfuel :
    10 * len (take CONFIG_USB_CDC_TX_BUFSIZE
                (usb_sendbuf
                   (set_usb_sendbuf (bytes_of "target") running_trickle)))
    < Z.of_nat 61) by reflexivity.
  destruct (sender_turn_ends trickled trickle_port_takes_prefix
              (fun h => eq_refl) (fun us h => eq_refl) trickle_port_progresses
              61 (set_usb_sendbuf (bytes_of "target") running_trickle)
              Hsize Hfuel)
    as (w' & Hturn & Hgot & Hsb & _).
  split; [exact trickle_port_takes_prefix|].
  split; [exact trickle_port_progresses|].
  split; [exact Hsize|].
  split; [exact Hfuel|].
  exists w'. repeat split; assumption.
Defined.


Lemma burst_relayed_in_order_witness :
  serial_read_enabled running = true /\
  uart_queue running = [] /\
  uart_rx running = [] /\
  len [bytes_of "ets "; bytes_of "Jun"] <= 20 /\
  Forall (fun bytes => len bytes <= SLAVE_UART_BUF_SIZE)
    [bytes_of "ets "; bytes_of "Jun"] /\
  len (List.concat [bytes_of "ets "; bytes_of "Jun"])
  <= USB_SEND_RINGBUFFER_SIZE - len (usb_sendbuf running) /\
  exists w',
    run (uart_posts [bytes_of "ets "; bytes_of "Jun"] ++ relay_turns 2) running
    = Done tt w' /\
    usb_sendbuf w' = bytes_of "ets Jun" /\
    uart_rx w' = [].
Proof.
  assert (Hcount : len [bytes_of "ets "; bytes_of "Jun"] <= 20)
    by (vm_compute; discriminate).
  assert (Hfit : Forall (fun bytes => len bytes <= SLAVE_UART_BUF_SIZE)
                   [bytes_of "ets "; bytes_of "Jun"])
    by (repeat constructor; vm_compute; discriminate).
  assert (Hroom : len (List.concat [bytes_of "ets "; bytes_of "Jun"])
                  <= USB_SEND_RINGBUFFER_SIZE - len (usb_sendbuf running))
    by (vm_compute; discriminate).
  destruct (burst_relayed_in_order [bytes_of "ets "; bytes_of "Jun"] running
              eq_refl eq_refl eq_refl Hcount Hfit Hroom)
    as (w' & Hrun & Hsb & Hrx & _).
  repeat (split; [assumption || reflexivity|]).
  exists w'. repeat split; assumption.
Defined.


Lemma stale_bytes_relayed_first_witness :
  serial_read_enabled (set_serial_read_enabled false running) = false /\
  uart_queue (set_serial_read_enabled false running) = [] /\
  uart_rx (set_serial_read_enabled false running) = [] /\
  len (bytes_of "new") <= SLAVE_UART_BUF_SIZE /\
  len (bytes_of "new")
  <= USB_SEND_RINGBUFFER_SIZE
     - len (usb_sendbuf (set_serial_read_enabled false running)) /\
  exists w',
    run [op_uart_isr (data_event (bytes_of "old")) (bytes_of "old");
         op_uart_event_task;
         op_serial_set true;
         op_uart_isr (data_event (bytes_of "new")) (bytes_of "new");
         op_uart_event_task] (set_serial_read_enabled false running)
    = Done tt w' /\
    usb_sendbuf w' = bytes_of "old" /\
    uart_rx w' = bytes_of "new".
Proof.
  assert (Hfit : len (bytes_of "new") <= SLAVE_UART_BUF_SIZE)
    by (vm_compute; discriminate).
  assert (Hroom : len (bytes_of "new")
                  <= USB_SEND_RINGBUFFER_SIZE
                     - len (usb_sendbuf (set_serial_read_enabled false running)))
    by (vm_compute; discriminate).
  destruct (stale_bytes_relayed_first (bytes_of "old") (bytes_of "new")
              (set_serial_read_enabled false running)
              eq_refl eq_refl eq_refl Hfit Hroom)
    as (w' & Hrun & Hsb & Hrx).
  repeat (split; [assumption || reflexivity|]).
  exists w'. repeat split; assumption.
Defined.

Lemma host_bytes_forwarded_in_order_witness :
  CONFIG_USB_CDC_RX_BUFSIZE < 2 ^ 31 /\
  serial_init_finished running = true /\
  cdc_rx running = [] /\
  Forall (fun bytes => len bytes <= CONFIG_USB_CDC_RX_BUFSIZE)
    [bytes_of "sync"; bytes_of "flash"] /\
  len (List.concat [bytes_of "sync"; bytes_of "flash"]) <= uart_tx_room running /\
  exists w',
    run (host_sends 0 [bytes_of "sync"; bytes_of "flash"]) running = Done tt w' /\
    uart_tx w' = bytes_of "syncflash" /\
    cdc_rx w' = [].
Proof.
  assert (Hsize : CONFIG_USB_CDC_RX_BUFSIZE < 2 ^ 31) by reflexivity.
  assert (Hfit : Forall (fun bytes => len bytes <= CONFIG_USB_CDC_RX_BUFSIZE)
                   [bytes_of "sync"; bytes_of "flash"])
    by (repeat constructor; vm_compute; discriminate).
  assert (Hroom : len (List.concat [bytes_of "sync"; bytes_of "flash"])
                  <= uart_tx_room running)
    by (vm_compute; discriminate).
  destruct (host_bytes_forwarded_in_order 0 [bytes_of "sync"; bytes_of "flash"]
              running Hsize eq_refl eq_refl Hfit Hroom)
    as (w' & Hrun & Htx & Hrx).
  repeat (split; [assumption || reflexivity|]).
  exists w'. repeat split; assumption.
Defined.

(** * Properties of ws2812.c *)

Section Ws2812Properties.

Context {R : Type} {libc : Libc R}.

Local Abbreviation leds := (@leds R).

Lemma lor_high_low (hi lo n : Z) :
  0 <= n -> 0 <= lo < 2 ^ n -> Z.lor (hi * 2 ^ n) lo = hi * 2 ^ n + lo.
Proof.
  intros Hn Hlo.
  assert (Hland : Z.land (hi * 2 ^ n) lo = 0).
  { apply Z.bits_inj'. intros m Hm.
    rewrite Z.land_spec, Z.bits_0.
    destruct (Z.lt_ge_cases m n) as [Hlt|Hge].
    - rewrite Z.mul_pow2_bits_low by assumption. reflexivity.
    - rewrite <- (Z.mod_small lo (2 ^ n)) by assumption.
      rewrite Z.mod_pow2_bits_high by lia. apply andb_false_r. }
  rewrite <- (Z.add_lor_land (hi * 2 ^ n) lo), Hland. lia.
Qed.

Lemma uint8_range (z : Z) : 0 <= uint8 z < 256.
Proof. unfold uint8. change (2 ^ 8) with 256. apply Z.mod_pos_bound. lia. Qed.

Lemma urgb_u32_value (r g b : Z) :
  urgb_u32 r g b = uint8 g * 2 ^ 16 + uint8 r * 2 ^ 8 + uint8 b.
Proof.
  pose proof (uint8_range r) as Hr.
  pose proof (uint8_range g) as Hg.
  pose proof (uint8_range b) as Hb.
  unfold urgb_u32.
  rewrite !Z.shiftl_mul_pow2 by lia.
  change (2 ^ 8) with 256 in *. change (2 ^ 16) with 65536 in *.
  rewrite (uint32_small (uint8 r)), (uint32_small (uint8 g)),
    (uint32_small (uint8 b)) by (change (2 ^ 32) with 4294967296; lia).
  rewrite !uint32_small by (change (2 ^ 32) with 4294967296; lia).
  rewrite (Z.lor_comm (uint8 r * 256)), <- Z.lor_assoc.
  change 256 with (2 ^ 8). change 65536 with (2 ^ 16).
  rewrite (lor_high_low (uint8 r) (uint8 b) 8)
    by (change (2 ^ 8) with 256; lia).
  rewrite (lor_high_low (uint8 g) _ 16)
    by (change (2 ^ 8) with 256; change (2 ^ 16) with 65536; lia).
  lia.
Qed.

Lemma put_pixel_small (v : Z) (s : leds) :
  0 <= v < 2 ^ 24 ->
  put_pixel v s = mk_leds (rand_state s) (pio_tx s ++ [v * 2 ^ 8]).
Proof.
  intros Hv. unfold put_pixel.
  change (2 ^ 24) with 16777216 in Hv.
  rewrite Z.shiftl_mul_pow2 by lia.
  change (2 ^ 8) with 256.
  rewrite (uint32_small v) by (change (2 ^ 32) with 4294967296; lia).
  rewrite uint32_small by (change (2 ^ 32) with 4294967296; lia).
  reflexivity.
Qed.

(** X12.  [ws2812_put_pixel(r, g, b)] puts exactly one word to the state
    machine: green in the top byte, then red, then blue, and a zero low
    byte, each level taken modulo 256 (the order the LED expects, not the
    order of the arguments).  The three levels can be read back from the
    word, so different colours give different words. *)
Theorem ws2812_put_pixel_word (r g b : Z) (s : leds) :
  let word := grb_word (uint8 r) (uint8 g) (uint8 b) in
  ws2812_put_pixel r g b s = mk_leds (rand_state s) (pio_tx s ++ [word]) /\
  0 <= word < 2 ^ 32 /\
  word / 2 ^ 24 = uint8 g /\
  (word / 2 ^ 16) mod 2 ^ 8 = uint8 r /\
  (word / 2 ^ 8) mod 2 ^ 8 = uint8 b /\
  word mod 2 ^ 8 = 0.
Proof.
  pose proof (uint8_range r) as Hr.
  pose proof (uint8_range g) as Hg.
  pose proof (uint8_range b) as Hb.
  intros word. unfold ws2812_put_pixel.
  rewrite put_pixel_small
    by (rewrite urgb_u32_value; change (2 ^ 24) with 16777216;
        change (2 ^ 16) with 65536; change (2 ^ 8) with 256; lia).
  rewrite urgb_u32_value. unfold word, grb_word.
  change (2 ^ 32) with 4294967296. change (2 ^ 24) with 16777216.
  change (2 ^ 16) with 65536. change (2 ^ 8) with 256.
  split; [f_equal; f_equal; f_equal; lia|].
  repeat split; try lia; Z.to_euclidean_division_equations; lia.
Qed.

Lemma frame_of_appended (pat : Z -> Z -> leds -> leds) (len t : Z) (s : leds)
  (r : R) (words : list Z) :
  pat len t s = mk_leds r (pio_tx s ++ words) ->
  frame pat len t s = words.
Proof.
  intros Hpat. unfold frame. rewrite Hpat. simpl.
  rewrite skipn_app, Nat.sub_diag, skipn_all. reflexivity.
Qed.

Lemma count_from_shift {A : Type} (f : Z -> A) (i : Z) (n : nat) :
  map f (count_from (i + 1) n) = map (fun k => f (k + 1)) (count_from i n).
Proof.
  revert i. induction n as [|n IH]; intros i; simpl.
  - reflexivity.
  - now rewrite IH.
Qed.

Lemma count_from_length (i : Z) (n : nat) : List.length (count_from i n) = n.
Proof.
  revert i. induction n as [|n IH]; intros i; simpl; [reflexivity|].
  now rewrite IH.
Qed.

Lemma snakes_loop_words (len t : Z) :
  len < 2 ^ 32 ->
  forall (turns : nat) (i : Z) (s : leds),
    0 <= i ->
    i + Z.of_nat turns <= len ->
    snakes_loop turns i len t s
    = mk_leds (rand_state s)
        (pio_tx s ++
           map (fun k => snake_word (snake_step k t)) (count_from i turns)).
Proof.
  intros Hlen. change (2 ^ 32) with 4294967296 in Hlen.
  induction turns as [|turns IH]; intros i s Hi Hturns.
  - simpl. rewrite app_nil_r. destruct s; reflexivity.
  - cbn [snakes_loop count_from map].
    destruct (Z.ltb_spec i len); [|lia].
    assert (Hx : uint32 (i + Z.shiftr t 1) mod 64 = snake_step i t).
    { unfold uint32, snake_step. rewrite Z.shiftr_div_pow2 by lia.
      apply Z.mod_mod_divide. exists 67108864. reflexivity. }
    rewrite Hx.
    rewrite (uint32_small (i + 1)) by (change (2 ^ 32) with 4294967296; lia).
    assert (Hbody :
      (if snake_step i t <? 10 then put_pixel (urgb_u32 255 0 0) s
       else if (15 <=? snake_step i t) && (snake_step i t <? 25)
            then put_pixel (urgb_u32 0 255 0) s
            else if (30 <=? snake_step i t) && (snake_step i t <? 40)
                 then put_pixel (urgb_u32 0 0 255) s
                 else put_pixel 0 s)
      = mk_leds (rand_state s) (pio_tx s ++ [snake_word (snake_step i t)])).
    { unfold snake_word.
      destruct (snake_step i t <? 10); [reflexivity|].
      destruct ((15 <=? snake_step i t) && (snake_step i t <? 25));
        [reflexivity|].
      destruct ((30 <=? snake_step i t) && (snake_step i t <? 40));
        reflexivity. }
    rewrite Hbody.
    rewrite IH by (simpl; lia). simpl. rewrite <- app_assoc. reflexivity.
Qed.

Lemma pattern_snakes_words (len t : Z) (s : leds) :
  let words :=
    map (fun i => snake_word (snake_step i (uint32 t)))
      (count_from 0 (Z.to_nat (uint32 len))) in
  pattern_snakes len t s = mk_leds (rand_state s) (pio_tx s ++ words) /\
  frame pattern_snakes len t s = words /\
  Z.of_nat (List.length words) = uint32 len.
Proof.
  intros words.
  assert (Hu : 0 <= uint32 len < 2 ^ 32)
    by (unfold uint32; apply Z.mod_pos_bound; reflexivity).
  assert (Hpat : pattern_snakes len t s
                 = mk_leds (rand_state s) (pio_tx s ++ words)).
  { unfold pattern_snakes. apply snakes_loop_words; lia. }
  split; [exact Hpat|]. split.
  - apply (frame_of_appended _ _ _ _ _ _ Hpat).
  - unfold words. rewrite length_map, count_from_length. lia.
Qed.

(** X13.  [pattern_snakes(len, t)] puts exactly [len] words, one per LED and
    in the order of the strip, and leaves [rand] alone.  The word of LED [i]
    depends on [(i + t / 2) mod 64] only: red for 0 to 9, green for 15 to
    24, blue for 30 to 39, dark otherwise.  The wrap-around of the unsigned
    sum does not show, since 64 divides 2^32. *)
Theorem pattern_snakes_frame (len t : Z) (s : leds) :
  let words :=
    map (fun i => snake_word (snake_step i (uint32 t)))
      (count_from 0 (Z.to_nat (uint32 len))) in
  pattern_snakes len t s = mk_leds (rand_state s) (pio_tx s ++ words) /\
  frame pattern_snakes len t s = words /\
  Z.of_nat (List.length words) = uint32 len.
Proof.
  exact (pattern_snakes_words len t s).
Qed.

(** X14.  The snakes move: two ticks later every LED shows what its
    neighbour further along the strip showed, and after 128 ticks the frame
    is the same again. *)
Theorem pattern_snakes_moves (len t : Z) (s : leds) :
  0 <= len ->
  len + 1 < 2 ^ 32 ->
  0 <= t ->
  t + 128 < 2 ^ 32 ->
  frame pattern_snakes len (t + 2) s = tl (frame pattern_snakes (len + 1) t s) /\
  frame pattern_snakes len (t + 128) s = frame pattern_snakes len t s.
Proof.
  intros Hlen Hlen1 Ht Ht1. change (2 ^ 32) with 4294967296 in *.
  destruct (pattern_snakes_words len (t + 2) s) as (_ & -> & _).
  destruct (pattern_snakes_words (len + 1) t s) as (_ & -> & _).
  destruct (pattern_snakes_words len (t + 128) s) as (_ & -> & _).
  destruct (pattern_snakes_words len t s) as (_ & -> & _).
  rewrite !uint32_small by (change (2 ^ 32) with 4294967296; lia).
  replace (Z.to_nat (len + 1)) with (S (Z.to_nat len)) by lia.
  split.
  - cbn [count_from map tl].
    change (count_from 1 (Z.to_nat len))
      with (count_from (0 + 1) (Z.to_nat len)).
    rewrite count_from_shift. apply map_ext. intros k.
    f_equal. unfold snake_step. f_equal.
    Z.to_euclidean_division_equations; lia.
  - apply map_ext. intros k. f_equal. unfold snake_step.
    Z.to_euclidean_division_equations; lia.
Qed.

Lemma greys_loop_words (len : Z) :
  len < 2 ^ 31 ->
  forall (turns : nat) (i t : Z) (s : leds),
    0 <= i ->
    i + Z.of_nat turns <= len ->
    0 <= t < 100 ->
    greys_loop turns i len 100 t s
    = mk_leds (rand_state s)
        (pio_tx s ++
           map (fun k => grb_word ((t + k) mod 100) ((t + k) mod 100)
                           ((t + k) mod 100))
             (count_from 0 turns)).
Proof.
  intros Hlen. change (2 ^ 31) with 2147483648 in Hlen.
  induction turns as [|turns IH]; intros i t s Hi Hturns Ht.
  - simpl. rewrite app_nil_r. destruct s; reflexivity.
  - cbn [greys_loop count_from map].
    rewrite (uint32_small i) by (change (2 ^ 32) with 4294967296; lia).
    destruct (Z.ltb_spec i len); [|lia].
    rewrite (uint32_small (t * 65793))
      by (change (2 ^ 32) with 4294967296; lia).
    rewrite put_pixel_small by (change (2 ^ 24) with 16777216; lia).
    rewrite (uint32_small (t + 1)) by (change (2 ^ 32) with 4294967296; lia).
    rewrite (int32_small (i + 1)) by (change (2 ^ 31) with 2147483648; lia).
    change (uint32 100) with 100.
    rewrite IH; [| lia | lia | destruct (Z.leb_spec 100 (t + 1)); lia].
    cbn [rand_state pio_tx]. rewrite <- app_assoc. f_equal. f_equal.
    cbn [app]. f_equal.
    + rewrite Z.add_0_r, Z.mod_small by lia. unfold grb_word.
      change (2 ^ 24) with 16777216. change (2 ^ 16) with 65536.
      change (2 ^ 8) with 256. lia.
    + rewrite count_from_shift.
      apply map_ext. intros k.
      assert (Hmod : ((if 100 <=? t + 1 then 0 else t + 1) + k) mod 100
                     = (t + (k + 1)) mod 100).
      { destruct (Z.leb_spec 100 (t + 1));
          Z.to_euclidean_division_equations; lia. }
      now rewrite Hmod.
Qed.

Lemma pattern_greys_words (len t : Z) (s : leds) :
  0 <= len < 2 ^ 31 ->
  let level := fun i => (uint32 t + i) mod 100 in
  let words :=
    map (fun i => grb_word (level i) (level i) (level i))
      (count_from 0 (Z.to_nat len)) in
  pattern_greys len t s = mk_leds (rand_state s) (pio_tx s ++ words) /\
  frame pattern_greys len t s = words /\
  Z.of_nat (List.length words) = len /\
  Forall (fun word => exists g, 0 <= g < 100 /\ word = grb_word g g g) words.
Proof.
  intros Hlen level words.
  assert (H31 : 2 ^ 31 = 2147483648) by reflexivity.
  assert (Hpat : pattern_greys len t s
                 = mk_leds (rand_state s) (pio_tx s ++ words)).
  { unfold pattern_greys. change (uint32 100) with 100.
    rewrite (uint32_small len) by (change (2 ^ 32) with 4294967296; lia).
    rewrite greys_loop_words;
      [| lia | lia | lia | apply Z.mod_pos_bound; lia].
    f_equal. f_equal. apply map_ext. intros k. unfold level.
    rewrite Z.add_mod_idemp_l by lia. reflexivity. }
  split; [exact Hpat|]. split; [apply (frame_of_appended _ _ _ _ _ _ Hpat)|].
  split.
  - unfold words. rewrite length_map, count_from_length. lia.
  - unfold words. apply Forall_forall. intros word Hin.
    apply in_map_iff in Hin. destruct Hin as (i & <- & _).
    exists (level i). split; [|reflexivity].
    unfold level. apply Z.mod_pos_bound. lia.
Qed.

(** X15.  [pattern_greys(len, t)], for a strip of fewer than 2^31 LEDs,
    puts exactly [len] words; LED [i] gets the same level [(t + i) mod 100]
    on green, red and blue.  So every LED is grey and no level ever reaches
    100, whatever [t] is. *)
Theorem pattern_greys_frame (len t : Z) (s : leds) :
  0 <= len < 2 ^ 31 ->
  let level := fun i => (uint32 t + i) mod 100 in
  let words :=
    map (fun i => grb_word (level i) (level i) (level i))
      (count_from 0 (Z.to_nat len)) in
  pattern_greys len t s = mk_leds (rand_state s) (pio_tx s ++ words) /\
  frame pattern_greys len t s = words /\
  Z.of_nat (List.length words) = len /\
  Forall (fun word => exists g, 0 <= g < 100 /\ word = grb_word g g g) words.
Proof.
  exact (pattern_greys_words len t s).
Qed.

Lemma uint32_int32 (z : Z) : uint32 (int32 z) = uint32 z.
Proof.
  unfold uint32, int32.
  change (2 ^ 32) with 4294967296. change (2 ^ 31) with 2147483648.
  Z.to_euclidean_division_equations; lia.
Qed.

Lemma rand_values_length (n : nat) (r : R) :
  List.length (fst (rand_values n r)) = n.
Proof.
  revert r. induction n as [|n IH]; intros r; simpl; [reflexivity|].
  now rewrite IH.
Qed.

Lemma random_loop_words (len : Z) :
  len < 2 ^ 31 ->
  forall (turns : nat) (i : Z) (s : leds),
    0 <= i ->
    i + Z.of_nat turns <= len ->
    random_loop turns i len s
    = mk_leds (snd (rand_values turns (rand_state s)))
        (pio_tx s ++
           map (fun v => uint32 (Z.shiftl (uint32 v) 8))
             (fst (rand_values turns (rand_state s)))).
Proof.
  intros Hlen. change (2 ^ 31) with 2147483648 in Hlen.
  induction turns as [|turns IH]; intros i s Hi Hturns.
  - simpl. rewrite app_nil_r. destruct s; reflexivity.
  - cbn [random_loop rand_values].
    rewrite (uint32_small i) by (change (2 ^ 32) with 4294967296; lia).
    destruct (Z.ltb_spec i len); [|lia].
    rewrite (int32_small (i + 1)) by (change (2 ^ 31) with 2147483648; lia).
    rewrite IH by lia.
    unfold put_pixel, call_rand. cbn [fst snd rand_state pio_tx map].
    rewrite uint32_int32, <- app_assoc. reflexivity.
Qed.

Lemma pattern_random_words (len t : Z) (s : leds) :
  0 <= len < 2 ^ 31 ->
  let drawn := rand_values (Z.to_nat len) (rand_state s) in
  if uint32 t mod 8 =? 0 then
    pattern_random len t s
    = mk_leds (snd drawn)
        (pio_tx s ++
           map (fun v => uint32 (Z.shiftl (uint32 v) 8)) (fst drawn)) /\
    Z.of_nat (List.length (frame pattern_random len t s)) = len
  else pattern_random len t s = s.
Proof.
  intros Hlen drawn. change (2 ^ 31) with 2147483648 in Hlen.
  destruct (uint32 t mod 8 =? 0) eqn:Htick.
  - assert (Hpat : pattern_random len t s
                   = mk_leds (snd drawn)
                       (pio_tx s ++
                          map (fun v => uint32 (Z.shiftl (uint32 v) 8))
                            (fst drawn))).
    { unfold pattern_random. rewrite Htick. cbn [negb].
      rewrite (uint32_small len) by (change (2 ^ 32) with 4294967296; lia).
      apply random_loop_words; change (2 ^ 31) with 2147483648; lia. }
    split; [exact Hpat|].
    rewrite (frame_of_appended _ _ _ _ _ _ Hpat).
    unfold drawn. rewrite length_map, rand_values_length. lia.
  - unfold pattern_random. rewrite Htick. reflexivity.
Qed.

(** X16.  [pattern_random(len, t)] does nothing on seven ticks out of eight:
    when [t] is not a multiple of 8 it puts no word and does not call
    [rand].  On the eighth, for a strip of fewer than 2^31 LEDs, it calls
    [rand] exactly [len] times and puts one word per value, in the order
    drawn: the value shifted left by 8 bits, so its top byte is lost and
    the low byte of the word is zero. *)
Theorem pattern_random_frame (len t : Z) (s : leds) :
  0 <= len < 2 ^ 31 ->
  let drawn := rand_values (Z.to_nat len) (rand_state s) in
  if uint32 t mod 8 =? 0 then
    pattern_random len t s
    = mk_leds (snd drawn)
        (pio_tx s ++
           map (fun v => uint32 (Z.shiftl (uint32 v) 8)) (fst drawn)) /\
    Z.of_nat (List.length (frame pattern_random len t s)) = len
  else pattern_random len t s = s.
Proof.
  exact (pattern_random_words len t s).
Qed.

Lemma sparkle_loop_words (len : Z) :
  len < 2 ^ 31 ->
  forall (turns : nat) (i : Z) (s : leds),
    0 <= i ->
    i + Z.of_nat turns <= len ->
    sparkle_loop turns i len s
    = mk_leds (snd (rand_values turns (rand_state s)))
        (pio_tx s ++ map sparkle_word (fst (rand_values turns (rand_state s)))).
Proof.
  intros Hlen. change (2 ^ 31) with 2147483648 in Hlen.
  induction turns as [|turns IH]; intros i s Hi Hturns.
  - simpl. rewrite app_nil_r. destruct s; reflexivity.
  - cbn [sparkle_loop rand_values].
    rewrite (uint32_small i) by (change (2 ^ 32) with 4294967296; lia).
    destruct (Z.ltb_spec i len); [|lia].
    rewrite (int32_small (i + 1)) by (change (2 ^ 31) with 2147483648; lia).
    rewrite IH by lia.
    unfold put_pixel, call_rand, sparkle_word.
    cbn [fst snd rand_state pio_tx map].
    rewrite <- app_assoc. f_equal. f_equal. cbn [app]. f_equal.
    destruct (Z.rem (int32 (fst (rand (rand_state s)))) 16 =? 0); reflexivity.
Qed.

Lemma pattern_sparkle_words (len t : Z) (s : leds) :
  0 <= len < 2 ^ 31 ->
  let drawn := rand_values (Z.to_nat len) (rand_state s) in
  if uint32 t mod 8 =? 0 then
    pattern_sparkle len t s
    = mk_leds (snd drawn) (pio_tx s ++ map sparkle_word (fst drawn)) /\
    Z.of_nat (List.length (frame pattern_sparkle len t s)) = len /\
    Forall (fun word => word = 0 \/ word = grb_word 255 255 255)
      (frame pattern_sparkle len t s)
  else pattern_sparkle len t s = s.
Proof.
  intros Hlen drawn. change (2 ^ 31) with 2147483648 in Hlen.
  destruct (uint32 t mod 8 =? 0) eqn:Htick.
  - assert (Hpat : pattern_sparkle len t s
                   = mk_leds (snd drawn)
                       (pio_tx s ++ map sparkle_word (fst drawn))).
    { unfold pattern_sparkle. rewrite Htick. cbn [negb].
      rewrite (uint32_small len) by (change (2 ^ 32) with 4294967296; lia).
      apply sparkle_loop_words; change (2 ^ 31) with 2147483648; lia. }
    split; [exact Hpat|].
    rewrite (frame_of_appended _ _ _ _ _ _ Hpat). split.
    + unfold drawn. rewrite length_map, rand_values_length. lia.
    + apply Forall_forall. intros word Hin.
      apply in_map_iff in Hin. destruct Hin as (v & <- & _).
      unfold sparkle_word.
      destruct (Z.rem (int32 v) 16 =? 0); [right | left]; reflexivity.
  - unfold pattern_sparkle. rewrite Htick. reflexivity.
Qed.

(** X17.  [pattern_sparkle(len, t)] does nothing when [t] is not a multiple
    of 8.  Otherwise, for a strip of fewer than 2^31 LEDs, it calls [rand]
    exactly [len] times and puts one word per value: all three colours
    fully on when the value is a multiple of 16, dark otherwise.  No LED is
    ever lit partly. *)
Theorem pattern_sparkle_frame (len t : Z) (s : leds) :
  0 <= len < 2 ^ 31 ->
  let drawn := rand_values (Z.to_nat len) (rand_state s) in
  if uint32 t mod 8 =? 0 then
    pattern_sparkle len t s
    = mk_leds (snd drawn) (pio_tx s ++ map sparkle_word (fst drawn)) /\
    Z.of_nat (List.length (frame pattern_sparkle len t s)) = len /\
    Forall (fun word => word = 0 \/ word = grb_word 255 255 255)
      (frame pattern_sparkle len t s)
  else pattern_sparkle len t s = s.
Proof.
  exact (pattern_sparkle_words len t s).
Qed.

(** X18.  Every pattern of [pattern_table], for a strip of fewer than 2^31
    LEDs: the words put before stay as they are, and the pattern adds
    either one word per LED or, for the two patterns that skip ticks, none
    at all. *)
Theorem pattern_table_frames
  (pat : Z -> Z -> leds -> leds) (name : string) (len t : Z) (s : leds) :
  In (pat, name) pattern_table ->
  0 <= len < 2 ^ 31 ->
  pio_tx (pat len t s) = pio_tx s ++ frame pat len t s /\
  (Z.of_nat (List.length (frame pat len t s)) = len \/ pat len t s = s).
Proof.
  intros Hin Hlen.
  assert (H31 : 2 ^ 31 = 2147483648) by reflexivity.
  assert (Hu : uint32 len = len)
    by (apply uint32_small; change (2 ^ 32) with 4294967296; lia).
  assert (Hkeep : forall r words,
            pat len t s = mk_leds r (pio_tx s ++ words) ->
            pio_tx (pat len t s) = pio_tx s ++ frame pat len t s).
  { intros r words Hpat.
    rewrite (frame_of_appended _ _ _ _ _ _ Hpat), Hpat. reflexivity. }
  assert (Hsame : pat len t s = s ->
            pio_tx (pat len t s) = pio_tx s ++ frame pat len t s).
  { intros Hpat. apply (Hkeep (rand_state s) []).
    rewrite Hpat, app_nil_r. destruct s; reflexivity. }
  simpl in Hin.
  destruct Hin as [Hin|[Hin|[Hin|[Hin|[]]]]]; injection Hin as <- _.
  - destruct (pattern_snakes_words len t s) as (Hpat & Hframe & Hcount).
    split; [exact (Hkeep _ _ Hpat)|].
    left. rewrite Hframe, Hcount. exact Hu.
  - pose proof (pattern_random_words len t s Hlen) as Hframe.
    cbv zeta in Hframe.
    destruct (uint32 t mod 8 =? 0).
    + destruct Hframe as (Hpat & Hcount).
      split; [exact (Hkeep _ _ Hpat) | left; exact Hcount].
    + split; [exact (Hsame Hframe) | right; exact Hframe].
  - pose proof (pattern_sparkle_words len t s Hlen) as Hframe.
    cbv zeta in Hframe.
    destruct (uint32 t mod 8 =? 0).
    + destruct Hframe as (Hpat & Hcount & _).
      split; [exact (Hkeep _ _ Hpat) | left; exact Hcount].
    + split; [exact (Hsame Hframe) | right; exact Hframe].
  - destruct (pattern_greys_words len t s Hlen)
      as (Hpat & Hframe & Hcount & _).
    split; [exact (Hkeep _ _ Hpat)|].
    left. rewrite Hframe. exact Hcount.
Qed.

End Ws2812Properties.

(** ** The LED's properties at work *)

Lemma pattern_snakes_moves_witness :
  0 <= 8 /\
  8 + 1 < 2 ^ 32 /\
  0 <= 6 /\
  6 + 128 < 2 ^ 32 /\
  frame pattern_snakes 8 (6 + 2) dark = tl (frame pattern_snakes (8 + 1) 6 dark) /\
  frame pattern_snakes 8 (6 + 128) dark = frame pattern_snakes 8 6 dark.
Proof.
  assert (H1 : 0 <= 8) by lia.
  assert (H2 : 8 + 1 < 2 ^ 32) by reflexivity.
  assert (H3 : 0 <= 6) by lia.
  assert (H4 : 6 + 128 < 2 ^ 32) by reflexivity.
  repeat (split; [assumption|]).
  exact (pattern_snakes_moves 8 6 dark H1 H2 H3 H4).
Defined.

Lemma pattern_greys_frame_witness :
  0 <= 3 < 2 ^ 31 /\
  frame pattern_greys 3 98 dark
  = [grb_word 98 98 98; grb_word 99 99 99; grb_word 0 0 0].
Proof.
  assert (Hlen : 0 <= 3 < 2 ^ 31) by (split; [lia | reflexivity]).
  split; [exact Hlen|].
  exact (proj1 (proj2 (pattern_greys_frame 3 98 dark Hlen))).
Defined.

Lemma pattern_random_frame_witness :
  0 <= 2 < 2 ^ 31 /\
  Z.of_nat (List.length (frame pattern_random 2 8 dark)) = 2 /\
  pattern_random 2 9 dark = dark.
Proof.
  assert (Hlen : 0 <= 2 < 2 ^ 31) by (split; [lia | reflexivity]).
  split; [exact Hlen|]. split.
  - exact (proj2 (pattern_random_frame 2 8 dark Hlen)).
  - exact (pattern_random_frame 2 9 dark Hlen).
Defined.

Lemma pattern_sparkle_frame_witness :
  0 <= 4 < 2 ^ 31 /\
  Z.of_nat (List.length (frame pattern_sparkle 4 16 dark)) = 4 /\
  Forall (fun word => word = 0 \/ word = grb_word 255 255 255)
    (frame pattern_sparkle 4 16 dark) /\
  pattern_sparkle 4 17 dark = dark.
Proof.
  assert (Hlen : 0 <= 4 < 2 ^ 31) by (split; [lia | reflexivity]).
  split; [exact Hlen|]. split; [|split].
  - exact (proj1 (proj2 (pattern_sparkle_frame 4 16 dark Hlen))).
  - exact (proj2 (proj2 (pattern_sparkle_frame 4 16 dark Hlen))).
  - exact (pattern_sparkle_frame 4 17 dark Hlen).
Defined.

Lemma pattern_table_frames_witness :
  In (pattern_greys, "Greys") (pattern_table (R := Z)) /\
  0 <= 5 < 2 ^ 31 /\
  pio_tx (pattern_greys 5 0 dark) = pio_tx dark ++ frame pattern_greys 5 0 dark /\
  (Z.of_nat (List.length (frame pattern_greys 5 0 dark)) = 5 \/
   pattern_greys 5 0 dark = dark).
Proof.
  assert (Hin : In (pattern_greys, "Greys") (pattern_table (R := Z)))
    by (right; right; right; left; reflexivity).
  assert (Hlen : 0 <= 5 < 2 ^ 31) by (split; [lia | reflexivity]).
  split; [exact Hin|]. split; [exact Hlen|].
  exact (pattern_table_frames pattern_greys "Greys" 5 0 dark Hin Hlen).
Defined.
